(** * OSM building fetcher: a shallow embedding of [osm_building_fetcher.py]

    The development follows the Python module function by function:
    [_normalize_height] (with its inner [_clean]), [_format_address],
    [_ensure_closed_ring], [_build_czml_document] and the two loops of
    [fetch_osm_buildings] that index the Overpass elements and assemble the
    building records.

    Conventions of the embedding:
    - a Python [str] is a [string]; the only characters the code inspects are
      ASCII ('+', '-', '.', '0'..'9'), so a string is read as its UTF-8 bytes;
    - a Python [float] is a binary64 value ([PrimFloat.float]);
    - [Optional[T]] is [option T], [None] is [None];
    - [Dict[str, str]] (the tags) and [Dict[int, ...]] used only for lookups
      (the node index) are [gmap]s; the dictionary of buildings, whose
      iteration order decides the order of the results, is an
      insertion-ordered association list;
    - an exception is a value of [sum]. *)

From Stdlib Require Import ZArith Ascii String PrimFloat SpecFloat FloatOps.
From Stdlib Require Import DecimalString.
From Stdlib Require DecimalPos DecimalZ FloatAxioms.
From stdpp Require Import gmap strings list.

Local Open Scope Z_scope.
Local Open Scope string_scope.

(** [simpl] may unfold string concatenation when its first argument starts
    with a constructor. *)
Local Arguments String.append !s1 s2 / : simpl nomatch.

(** ** Python values *)

Module Py.

(** Truthiness of a [str]: the empty string is falsy. *)
Definition truthy (s : string) : bool :=
  match s with
  | EmptyString => false
  | String _ _ => true
  end.

(** Truthiness of an [Optional[str]]: [None] and [""] are falsy. *)
Definition truthy_opt (o : option string) : bool :=
  match o with
  | Some s => truthy s
  | None => false
  end.

(** [a or b] on two optional strings. *)
Definition or_opt (a b : option string) : option string :=
  if truthy_opt a then a else b.

(** [a or b] where [b] is a string literal. *)
Definition or_str (a : option string) (b : string) : string :=
  match a with
  | Some s => if truthy s then s else b
  | None => b
  end.

(** [sep.join(parts)]. *)
Fixpoint join (sep : string) (parts : list string) : string :=
  match parts with
  | [] => ""
  | [p] => p
  | p :: rest => p ++ sep ++ join sep rest
  end.

(** [str(n)] for an [int]. *)
Definition str_of_int (n : Z) : string :=
  NilZero.string_of_int (Z.to_int n).

(** The value [(-1)^neg * m / 10^k], correctly rounded to binary64
    (round to nearest, ties to even), as CPython's string-to-double
    conversion does.  The quotient of the two integers is rounded
    once, by the IEEE 754 division of [SpecFloat]. *)
Definition float_of_decimal (neg : bool) (m : Z) (k : nat) : float :=
  match m with
  | Zpos p =>
      SF2Prim (SFdiv prec emax
                 (S754_finite neg p 0)
                 (S754_finite false (Z.to_pos (10 ^ Z.of_nat k)) 0))
  | _ => if neg then (-0)%float else 0%float
  end.

Definition is_digit (c : ascii) : bool :=
  let n := nat_of_ascii c in (48 <=? n)%nat && (n <=? 57)%nat.

Definition digit_value (c : ascii) : Z := Z.of_nat (nat_of_ascii c) - 48.

(** Reads a maximal run of decimal digits: the accumulated value, the
    number of digits read and the unread rest. *)
Fixpoint read_digits (s : string) (acc : Z) (n : nat) : Z * nat * string :=
  match s with
  | String c s' =>
      if is_digit c then read_digits s' (10 * acc + digit_value c) (S n)
      else (acc, n, s)
  | EmptyString => (acc, n, s)
  end.

Definition is_sign (c : ascii) : bool :=
  (c =? "-")%char || (c =? "+")%char.

Definition is_dot (c : ascii) : bool := (c =? ".")%char.

(** The literal after its sign: digits, and optionally a point followed
    by digits, with at least one digit in all. *)
Definition float_unsigned (neg : bool) (body : string)
  : option PrimFloat.float :=
  let '(ip, n1, r1) := read_digits body 0 0 in
  match r1 with
  | EmptyString =>
      if (n1 =? 0)%nat then None else Some (float_of_decimal neg ip 0)
  | String c r2 =>
      if is_dot c then
        let '(m, n2, r3) := read_digits r2 ip 0 in
        match r3 with
        | EmptyString =>
            if (n1 + n2 =? 0)%nat then None
            else Some (float_of_decimal neg m n2)
        | String _ _ => None
        end
      else None
  end.

(** [float(s)] on plain decimal literals with an optional sign.  [None]
    stands for [ValueError].  The builtin also accepts surrounding white
    space, exponents, underscores, "inf" and "nan"; the text handed to it by
    [_clean] never has any of these, so they are not modelled. *)
Definition float (s : string) : option PrimFloat.float :=
  match s with
  | String c r =>
      if is_sign c then float_unsigned (c =? "-")%char r
      else float_unsigned false s
  | EmptyString => float_unsigned false s
  end.

End Py.

(** ** The fragment of [re] that the height pattern uses *)

Module Re.

(** Patterns: a character class, a greedy optional, and greedy repetitions
    of a character class, in sequence. *)
Inductive regex : Type :=
| Cls (p : ascii -> bool)
| Opt (r : regex)
| Star (p : ascii -> bool)
| Plus (p : ascii -> bool)
| Cat (r1 r2 : regex).

Definition cons_fst (c : ascii) (x : string * string) : string * string :=
  (String c (fst x), snd x).

(** All the ways [p*] can match at the start of [s], longest first: the
    order in which a backtracking matcher tries them. *)
Fixpoint star (p : ascii -> bool) (s : string) : list (string * string) :=
  match s with
  | String c s' =>
      if p c then map (cons_fst c) (star p s') ++ [("", s)] else [("", s)]
  | EmptyString => [("", s)]
  end.

(** [matches r s] lists every (matched prefix, rest) for [r] anchored at the
    start of [s], in the priority order of the backtracking matcher. *)
Fixpoint matches (r : regex) (s : string) : list (string * string) :=
  match r with
  | Cls p =>
      match s with
      | String c s' => if p c then [(String c "", s')] else []
      | EmptyString => []
      end
  | Opt r1 => matches r1 s ++ [("", s)]
  | Star p => star p s
  | Plus p =>
      match s with
      | String c s' => if p c then map (cons_fst c) (star p s') else []
      | EmptyString => []
      end
  | Cat r1 r2 =>
      flat_map (fun x =>
                  map (fun y => (fst x ++ fst y, snd y)) (matches r2 (snd x)))
               (matches r1 s)
  end.

(** [re.search(r, s)]: the first match at the leftmost position that has
    one, as (text before, matched text, text after). *)
Fixpoint search (r : regex) (s : string) : option (string * string * string) :=
  match matches r s with
  | (m, rest) :: _ => Some ("", m, rest)
  | [] =>
      match s with
      | String c s' =>
          match search r s' with
          | Some (pre, m, rest) => Some (String c pre, m, rest)
          | None => None
          end
      | EmptyString => None
      end
  end.

(** Every character of [s] is in the class [p]. *)
Fixpoint all (p : ascii -> bool) (s : string) : bool :=
  match s with
  | String c s' => p c && all p s'
  | EmptyString => true
  end.

(** Some character of [s] is in the class [p]. *)
Fixpoint any (p : ascii -> bool) (s : string) : bool :=
  match s with
  | String c s' => p c || any p s'
  | EmptyString => false
  end.

(** The first character of [s], if there is one, is not in [p]. *)
Definition stops (p : ascii -> bool) (s : string) : bool :=
  match s with
  | String c _ => negb (p c)
  | EmptyString => true
  end.

(** The language of a pattern: the texts it can match, whatever the
    order in which a matcher finds them. *)
Fixpoint lang (r : regex) (m : string) : Prop :=
  match r with
  | Cls p => exists c, m = String c "" /\ p c = true
  | Opt r1 => m = "" \/ lang r1 m
  | Star p => all p m = true
  | Plus p => m <> "" /\ all p m = true
  | Cat r1 r2 => exists m1 m2, m = m1 ++ m2 /\ lang r1 m1 /\ lang r2 m2
  end.

End Re.

(** ** Height normalisation *)

(** The pattern [r"([-+]?[0-9]*\.?[0-9]+)"]; its only group is the whole
    match. *)
Definition number_re : Re.regex :=
  Re.Cat (Re.Opt (Re.Cls Py.is_sign))
    (Re.Cat (Re.Star Py.is_digit)
       (Re.Cat (Re.Opt (Re.Cls Py.is_dot)) (Re.Plus Py.is_digit))).

(** The inner function [_clean] of [_normalize_height]. *)
Definition _clean (value : string) : option float :=
  if negb (Py.truthy value) then None
  else
    match Re.search number_re value with
    | None => None
    | Some (_, tok, _) => Py.float tok
    end.

Definition _normalize_height (raw_height raw_levels : option string)
  : option float :=
  match _clean (Py.or_str raw_height "") with
  | Some height => Some height
  | None =>
      match _clean (Py.or_str raw_levels "") with
      | Some height => Some (height * 3)%float
      | None => None
      end
  end.

(** The call made by [fetch_osm_buildings] on a way's tags. *)
Definition resolve_height (tags : gmap string string) : option float :=
  _normalize_height
    (Py.or_opt (tags !! "height") (tags !! "building:height"))
    (tags !! "building:levels").

(** ** Address formatting *)

Definition _ADDRESS_FIELDS : list string :=
  [ "addr:housenumber"; "addr:houseletter"; "addr:street"; "addr:suburb";
    "addr:city"; "addr:state"; "addr:postcode"; "addr:country" ].

(** One turn of the loop of [_format_address]. *)
Definition address_step (tags : gmap string string)
    (parts : list string) (key : string) : list string :=
  match tags !! key with
  | Some value => if Py.truthy value then parts ++ [value] else parts
  | None => parts
  end.

Definition _format_address (tags : gmap string string) : option string :=
  let parts := fold_left (address_step tags) _ADDRESS_FIELDS [] in
  match parts with
  | [] => None
  | _ :: _ => Some (Py.join ", " parts)
  end.

(** The value that a listed tag contributes: none when the tag is absent
    or empty. *)
Definition part (tags : gmap string string) (key : string) : option string :=
  match tags !! key with
  | Some value => if Py.truthy value then Some value else None
  | None => None
  end.

(** The same, in the words of the specification: the values of the listed
    tags that are present and non-empty, in the listed order. *)
Definition address_parts_spec (tags : gmap string string) : list string :=
  omap (part tags) _ADDRESS_FIELDS.

(** ** Coordinates and rings *)

(** A float object of the payload: its identity and its value.  Python's
    comparison of containers treats two references to one object as equal
    before it asks [==], which matters for NaN only. *)
Record pyfloat : Type := PyFloat { addr : nat; fval : float }.

Definition obj_eq (x y : pyfloat) : bool :=
  (addr x =? addr y)%nat || (fval x =? fval y)%float.

(** The dictionary [{"lat": ..., "lng": ...}]. *)
Record coordinate : Type := Coord { lat : pyfloat; lng : pyfloat }.

(** [a == b] on two such dictionaries. *)
Definition coord_eq (a b : coordinate) : bool :=
  obj_eq (lat a) (lat b) && obj_eq (lng a) (lng b).

(** [_ensure_closed_ring] appends to its argument in place and returns it;
    its only caller rebinds the name to the result, so the list is passed
    through as a value here. *)
Definition _ensure_closed_ring (nodes : list coordinate) : list coordinate :=
  match nodes with
  | [] => nodes
  | first :: _ =>
      if negb (coord_eq first (List.last nodes first))
      then nodes ++ [first]
      else nodes
  end.

(** The vertices of a ring up to [==], keeping the last of each group. *)
Fixpoint distinct (l : list coordinate) : list coordinate :=
  match l with
  | [] => []
  | c :: l' => if existsb (coord_eq c) l' then distinct l' else c :: distinct l'
  end.

(** ** CZML documents *)

#[warnings="-register-all"]
Inductive json : Type :=
| JBool (b : bool)
| JInt (n : Z)
| JFloat (f : float)
| JStr (s : string)
| JArr (items : list json)
| JObj (fields : list (string * json)).

Fixpoint assoc (key : string) (fields : list (string * json)) : option json :=
  match fields with
  | [] => None
  | (k, v) :: rest => if (k =? key)%string then Some v else assoc key rest
  end.

(** [doc[k1][k2]...] on nested objects. *)
Fixpoint at_path (path : list string) (j : json) : option json :=
  match path with
  | [] => Some j
  | key :: rest =>
      match j with
      | JObj fields =>
          match assoc key fields with
          | Some v => at_path rest v
          | None => None
          end
      | _ => None
      end
  end.

(** One turn of the loop that fills [cartographic]. *)
Definition cartographic_step (cartographic : list json) (coord : coordinate)
  : list json :=
  cartographic ++ [JFloat (fval (lng coord)); JFloat (fval (lat coord)); JFloat 0].

Definition _build_czml_document (way_id : Z) (coordinates : list coordinate)
    (height : option float) : list json :=
  let height := match height with None => 10%float | Some h => h end in
  let cartographic := fold_left cartographic_step coordinates [] in
  let document_packet :=
    JObj [ ("id", JStr "document");
           ("name", JStr ("OSM Way " ++ Py.str_of_int way_id));
           ("version", JStr "1.0");
           ("clock",
             JObj [ ("interval",
                      JStr "2020-01-01T00:00:00Z/2020-01-01T00:01:00Z");
                    ("currentTime", JStr "2020-01-01T00:00:00Z");
                    ("multiplier", JInt 1) ]) ] in
  let building_packet :=
    JObj [ ("id", JStr ("building-" ++ Py.str_of_int way_id));
           ("name", JStr ("Building " ++ Py.str_of_int way_id));
           ("polygon",
             JObj [ ("positions",
                      JObj [ ("cartographicDegrees", JArr cartographic) ]);
                    ("perPositionHeight", JBool false);
                    ("extrudedHeight", JFloat height);
                    ("height", JFloat 0);
                    ("material",
                      JObj [ ("solidColor",
                               JObj [ ("color",
                                        JObj [ ("rgba",
                                                 JArr [JInt 255; JInt 165;
                                                       JInt 0; JInt 160]) ]) ]) ]);
                    ("outline", JBool true);
                    ("outlineColor",
                      JObj [ ("rgba",
                               JArr [JInt 0; JInt 0; JInt 0; JInt 255]) ]) ]) ] in
  [document_packet; building_packet].

(** The positions array in the words of the specification: one
    [longitude, latitude, 0.0] triple per vertex. *)
Definition positions_spec (coordinates : list coordinate) : list json :=
  flat_map (fun c => [JFloat (fval (lng c)); JFloat (fval (lat c)); JFloat 0])
           coordinates.

(** ** The Overpass payload *)

(** A way element.  Its "nodes" and "tags" members are optional (the code
    reads them with [.get] and a default). *)
Record way : Type := MkWay {
  w_id : Z;
  w_nodes : option (list Z);
  w_tags : option (gmap string string)
}.

(** An element of the payload, by its "type": a node, a way, or anything
    else (a relation, say), which the code passes over. *)
Inductive element : Type :=
| Node (id : Z) (lat lon : pyfloat)
| Way (w : way)
| Other.

(** The decoded response: a JSON object that may lack "elements". *)
Record payload : Type := MkPayload { elements : option (list element) }.

(** ** Insertion-ordered dictionaries *)

Module ODict.

(** [d[k] = v]: a key already present keeps its place and takes the new
    value, a new key goes to the end. *)
Fixpoint set {V : Type} (k : Z) (v : V) (d : list (Z * V)) : list (Z * V) :=
  match d with
  | [] => [(k, v)]
  | (k', v') :: d' =>
      if (k' =? k)%Z then (k', v) :: d' else (k', v') :: set k v d'
  end.

Fixpoint get {V : Type} (k : Z) (d : list (Z * V)) : option V :=
  match d with
  | [] => None
  | (k', v') :: d' => if (k' =? k)%Z then Some v' else get k d'
  end.

End ODict.

(** ** The pipeline of [fetch_osm_buildings] *)

Record building_info : Type := MkInfo {
  way_id : Z;
  outline : list coordinate;
  height_m : option float;
  address : option string
}.

Definition tags_of (w : way) : gmap string string := default ∅ (w_tags w).

Definition is_building (w : way) : bool :=
  Py.truthy_opt (tags_of w !! "building").

(** One turn of the first loop: [nodes] and [buildings] after [element]. *)
Definition index_element (st : gmap Z coordinate * list (Z * way))
    (el : element) : gmap Z coordinate * list (Z * way) :=
  match el with
  | Node id la lo => (<[id := Coord la lo]> (fst st), snd st)
  | Way w => if is_building w then (fst st, ODict.set (w_id w) w (snd st))
             else st
  | Other => st
  end.

Definition index_elements (els : list element)
  : gmap Z coordinate * list (Z * way) :=
  fold_left index_element els (∅, []).

(** One turn of the inner loop over [node_refs]. *)
Definition resolve_step (nodes : gmap Z coordinate)
    (coordinates : list coordinate) (node_id : Z) : list coordinate :=
  match nodes !! node_id with
  | None => coordinates
  | Some node => coordinates ++ [Coord (lat node) (lng node)]
  end.

Definition resolve_coordinates (nodes : gmap Z coordinate)
    (node_refs : list Z) : list coordinate :=
  fold_left (resolve_step nodes) node_refs [].

(** The body of the second loop up to [results.append]: [None] is the
    [continue] taken on a ring of fewer than four coordinates. *)
Definition assemble (nodes : gmap Z coordinate) (way_id : Z) (w : way)
  : option building_info :=
  let coordinates :=
    _ensure_closed_ring (resolve_coordinates nodes (default [] (w_nodes w))) in
  if (length coordinates <? 4)%nat then None
  else
    let tags := tags_of w in
    Some {| way_id := way_id;
            outline := coordinates;
            height_m := resolve_height tags;
            address := _format_address tags |}.

(** What the second loop has built so far: the records, the names of the
    CZML files, and the files written (name and content, in order). *)
Record loop_state : Type := MkState {
  results : list building_info;
  czml_files : list string;
  written : list (string * json)
}.

Definition czml_name (way_id : Z) : string :=
  "way_" ++ Py.str_of_int way_id ++ ".czml".

Definition process_way (nodes : gmap Z coordinate) (output_czml : bool)
    (st : loop_state) (item : Z * way) : loop_state :=
  match assemble nodes (fst item) (snd item) with
  | None => st
  | Some info =>
      if output_czml then
        {| results := results st ++ [info];
           czml_files := czml_files st ++ [czml_name (way_id info)];
           written := written st ++
                        [(czml_name (way_id info),
                          JArr (_build_czml_document (way_id info)
                                  (outline info) (height_m info)))] |}
      else
        {| results := results st ++ [info];
           czml_files := czml_files st;
           written := written st |}
  end.

Definition process_ways (nodes : gmap Z coordinate) (output_czml : bool)
    (buildings : list (Z * way)) : loop_state :=
  fold_left (process_way nodes output_czml) buildings
            {| results := []; czml_files := []; written := [] |}.

Inductive OverpassError : Type :=
| NoPayload
| MissingElements.

(** The returned dictionary. *)
Record fetch_result : Type := MkResult {
  count : nat;
  buildings : list building_info;
  czml_files_out : option (list string)
}.

(** [fetch_osm_buildings] from the point where the payload has been
    obtained ([None] when every source failed).  The result is the returned
    dictionary with the files written: one document per building, then the
    manifest when there is at least one.  File names are given without the
    output directory. *)
Definition fetch_osm_buildings (pl : option payload) (output_czml : bool)
  : OverpassError + (fetch_result * list (string * json)) :=
  match pl with
  | None => inl NoPayload
  | Some p =>
      match elements p with
      | None => inl MissingElements
      | Some els =>
          let '(nodes, buildings) := index_elements els in
          let st := process_ways nodes output_czml buildings in
          let manifest :=
            match output_czml, czml_files st with
            | true, _ :: _ =>
                [("czml_manifest.json",
                   JObj [("files", JArr (map JStr (czml_files st)))])]
            | _, _ => []
            end in
          inr ({| count := length (results st);
                  buildings := results st;
                  czml_files_out :=
                    if output_czml then Some (czml_files st) else None |},
               (written st ++ manifest)%list)
      end
  end.

(** ** The bounding box and the sources of the payload *)

(** [min(a, b)] and [max(a, b)] on two floats: the builtins keep their
    first argument unless the second is smaller (larger) than it. *)
Definition py_min (a b : float) : float := if (b <? a)%float then b else a.

Definition py_max (a b : float) : float := if (a <? b)%float then b else a.

Record bbox : Type := MkBox {
  south : float;
  west : float;
  north : float;
  east : float
}.

(** The first four assignments of [fetch_osm_buildings]; a corner is a
    pair (latitude, longitude). *)
Definition bounding_box (sw_corner ne_corner : float * float) : bbox :=
  {| south := py_min (fst sw_corner) (fst ne_corner);
     north := py_max (fst sw_corner) (fst ne_corner);
     west := py_min (snd sw_corner) (snd ne_corner);
     east := py_max (snd sw_corner) (snd ne_corner) |}.

Definition OVERPASS_URL : string := "https://overpass-api.de/api/interpreter".

(** [list(overpass_urls or [...])], for [None] or a list of endpoints. *)
Definition candidate_urls (overpass_urls : option (list string)) : list string :=
  match overpass_urls with
  | Some (url :: urls) => url :: urls
  | _ => [ OVERPASS_URL;
           "https://overpass.kumi.systems/api/interpreter";
           "https://lz4.overpass-api.de/api/interpreter" ]
  end.

(** What one request to an endpoint comes to: [requests.get] or
    [raise_for_status] raises a [RequestException] (with its text),
    [response.json()] raises a [ValueError] (with its text), or the body
    decodes, to an object or to [None] (JSON null). *)
Inductive response : Type :=
| RequestFailed (exc : string)
| InvalidJson (exc : string)
| JsonBody (pl : option payload).

(** What there is at the offline path: no regular file, a file that
    decodes (to an object or to [None]), or a file that cannot be read or
    decoded, on which [open] or [json.load] raises. *)
Inductive offline_file : Type :=
| NotAFile
| FileJson (pl : option payload)
| FileUnreadable.

(** The outside of the function: the text of a path ([str(Path(p))]), the
    file system, and the answer to the request number k of a run, which was
    made for a bounding box at an endpoint (the query text and the URL are
    functions of these two). *)
Record world : Type := MkWorld {
  path_str : string -> string;
  file_at : string -> offline_file;
  http_get : nat -> bbox -> string -> response
}.

(** The state of the search for a payload: [payload], [errors], and the
    endpoints requested so far. *)
Record acquisition : Type := MkAcq {
  acq_payload : option payload;
  acq_errors : list string;
  acq_requests : list string
}.

(** The loop over [candidate_urls]; [JsonBody] is the [break]. *)
Fixpoint request_loop (w : world) (box : bbox) (urls : list string)
    (acq : acquisition) : acquisition :=
  match urls with
  | [] => acq
  | overpass_url :: rest =>
      let requests := (acq_requests acq ++ [overpass_url])%list in
      match http_get w (length (acq_requests acq)) box overpass_url with
      | RequestFailed exc =>
          request_loop w box rest
            {| acq_payload := acq_payload acq;
               acq_errors :=
                 (acq_errors acq ++ [(overpass_url ++ ": " ++ exc)%string])%list;
               acq_requests := requests |}
      | InvalidJson exc =>
          request_loop w box rest
            {| acq_payload := None;
               acq_errors :=
                 (acq_errors acq
                  ++ [(overpass_url ++ ": invalid JSON response ("
                       ++ exc ++ ")")%string])%list;
               acq_requests := requests |}
      | JsonBody pl =>
          {| acq_payload := pl;
             acq_errors := acq_errors acq;
             acq_requests := requests |}
      end
  end.

(** What [fetch_osm_buildings] can raise: an [OverpassError] with its
    text, or whatever reading the offline file raised. *)
Inductive raised : Type :=
| OverpassErrorWith (detail : string)
| OfflineFileError.

(** The offline file first, when a path is given. *)
Definition load_offline (w : world) (offline_payload_path : option string)
  : raised + acquisition :=
  let start := {| acq_payload := None; acq_errors := []; acq_requests := [] |} in
  match offline_payload_path with
  | Some path =>
      if Py.truthy path then
        match file_at w path with
        | NotAFile =>
            inr {| acq_payload := None;
                   acq_errors := ["Offline payload not found: " ++ path_str w path];
                   acq_requests := [] |}
        | FileJson pl =>
            inr {| acq_payload := pl; acq_errors := []; acq_requests := [] |}
        | FileUnreadable => inl OfflineFileError
        end
      else inr start
  | None => inr start
  end.

(** The whole of [fetch_osm_buildings], in a world: the result of the
    pipeline with the endpoints that were requested, or what was raised. *)
Definition fetch_osm_buildings_in (w : world)
    (sw_corner ne_corner : float * float)
    (overpass_urls : option (list string)) (output_czml : bool)
    (offline_payload_path : option string)
  : raised + (fetch_result * list (string * json) * list string) :=
  let box := bounding_box sw_corner ne_corner in
  match load_offline w offline_payload_path with
  | inl exc => inl exc
  | inr acq0 =>
      let acq :=
        match acq_payload acq0 with
        | None => request_loop w box (candidate_urls overpass_urls) acq0
        | Some _ => acq0
        end in
      match fetch_osm_buildings (acq_payload acq) output_czml with
      | inl NoPayload =>
          inl (OverpassErrorWith
                 match acq_errors acq with
                 | [] => "Overpass API returned no payload"
                 | _ :: _ => Py.join "; " (acq_errors acq)
                 end)
      | inl MissingElements =>
          inl (OverpassErrorWith
                 "Invalid Overpass API response: missing 'elements'")
      | inr out => inr (out, acq_requests acq)
      end
  end.

(** The text that a failed request adds to [errors]. *)
Definition failure (overpass_url : string) (r : response) : option string :=
  match r with
  | RequestFailed exc => Some (overpass_url ++ ": " ++ exc)
  | InvalidJson exc =>
      Some (overpass_url ++ ": invalid JSON response (" ++ exc ++ ")")
  | JsonBody _ => None
  end.

(** The texts of the requests number k, k+1, ... to the given endpoints,
    when every one of them fails. *)
Fixpoint failures (w : world) (box : bbox) (k : nat) (urls : list string)
  : option (list string) :=
  match urls with
  | [] => Some []
  | url :: rest =>
      match failure url (http_get w k box url), failures w box (S k) rest with
      | Some msg, Some msgs => Some (msg :: msgs)
      | _, _ => None
      end
  end.

(** ** Notions used to state the properties *)

(** What the pipeline makes of a payload, as [fetch_osm_buildings_in]
    returns it, with the endpoints that were requested. *)
Definition outcome (pl : payload) (output_czml : bool) (requests : list string)
  : raised + (fetch_result * list (string * json) * list string) :=
  match fetch_osm_buildings (Some pl) output_czml with
  | inl _ =>
      inl (OverpassErrorWith "Invalid Overpass API response: missing 'elements'")
  | inr out => inr (out, requests)
  end.

(** The comparison of two floats, through their specification. *)
Definition cmp (a b : float) : option comparison :=
  SFcompare (Prim2SF a) (Prim2SF b).

(** The part of the height pattern after the sign, and after the digits. *)
Definition tail_re : Re.regex :=
  Re.Cat (Re.Opt (Re.Cls Py.is_dot)) (Re.Plus Py.is_digit).

Definition unsigned_re : Re.regex := Re.Cat (Re.Star Py.is_digit) tail_re.

(** The text stops a number without a point: it goes on neither with a
    digit nor with a point and a digit. *)
Definition ends_number (rest : string) : bool :=
  match rest with
  | String c r =>
      negb (Py.is_digit c) && (negb (Py.is_dot c) || Re.stops Py.is_digit r)
  | EmptyString => true
  end.

(** The ring is closed: its first and last coordinates compare equal. *)
Definition closed (ring : list coordinate) : bool :=
  match ring with
  | [] => true
  | first :: _ => coord_eq first (List.last ring first)
  end.

(** The coordinate of the last node element of the payload with this
    identifier. *)
Fixpoint last_node (id : Z) (els : list element) : option coordinate :=
  match els with
  | [] => None
  | el :: rest =>
      match last_node id rest with
      | Some c => Some c
      | None =>
          match el with
          | Node i la lo => if (i =? id)%Z then Some (Coord la lo) else None
          | _ => None
          end
      end
  end.

(** The last building-tagged way element of the payload with this
    identifier. *)
Fixpoint last_building (id : Z) (els : list element) : option way :=
  match els with
  | [] => None
  | el :: rest =>
      match last_building id rest with
      | Some w => Some w
      | None =>
          match el with
          | Way w => if is_building w && (w_id w =? id)%Z then Some w else None
          | _ => None
          end
      end
  end.

(** The record, if any, of one item of the dictionary of buildings. *)
Definition assemble_item (nodes : gmap Z coordinate) (item : Z * way)
  : option building_info :=
  assemble nodes (fst item) (snd item).

(** The file written for a record when CZML output is on. *)
Definition czml_entry (info : building_info) : string * json :=
  (czml_name (way_id info),
   JArr (_build_czml_document (way_id info) (outline info) (height_m info))).

(** Two coordinates with the same numbers, whatever the identity of the
    float objects that hold them. *)
Definition same_position (a b : coordinate) : Prop :=
  fval (lat a) = fval (lat b) /\ fval (lng a) = fval (lng b).

(** A character that can neither start nor continue a number. *)
Definition plain (c : ascii) : bool :=
  negb (Py.is_digit c || Py.is_sign c || Py.is_dot c).

(** The identifiers of the building-tagged ways of the payload, each once,
    in the order in which they first appear. *)
Fixpoint first_ids (els : list element) : list Z :=
  match els with
  | [] => []
  | Way w :: rest =>
      if is_building w
      then w_id w
           :: List.filter (fun id => negb (id =? w_id w)%Z) (first_ids rest)
      else first_ids rest
  | _ :: rest => first_ids rest
  end.

(** Membership in a list of identifiers, as a test. *)
Definition inb (id : Z) (ids : list Z) : bool := existsb (Z.eqb id) ids.

(** An element that the first loop passes over: not a node, and not a way
    with a non-empty "building" tag. *)
Definition ignored (el : element) : bool :=
  match el with
  | Node _ _ _ => false
  | Way w => negb (is_building w)
  | Other => true
  end.

(** The record, if any, of the last building-tagged way with this
    identifier. *)
Definition record_of (els : list element) (id : Z) : option building_info :=
  match last_building id els with
  | Some w => assemble (fst (index_elements els)) id w
  | None => None
  end.

(** A world for the examples: one saved payload without buildings, one
    broken file, a first endpoint that is down, a second that answers with
    text that is not JSON, and a third that answers. *)
Definition example_world : world :=
  {| path_str := fun p => p;
     file_at := fun p =>
       if (p =? "saved.json")%string then FileJson (Some (MkPayload (Some [])))
       else if (p =? "broken.json")%string then FileUnreadable
       else NotAFile;
     http_get := fun k box url =>
       if (url =? "https://a.example/api")%string then RequestFailed "timed out"
       else if (url =? "https://b.example/api")%string then InvalidJson "no JSON"
       else if (url =? "https://c.example/api")%string
            then JsonBody (Some (MkPayload (Some [])))
       else if (url =? "https://null.example/api")%string then JsonBody None
       else RequestFailed "unreachable" |}.

(** The word [tok], between [pre] and [rest], is the first number of the
    text: a word of the height pattern such that no word of the pattern
    starts further to the left, and no longer one starts where it does. *)
Definition first_number (value pre tok rest : string) : Prop :=
  value = pre ++ tok ++ rest /\ Re.lang number_re tok /\
  (forall pre' tok' rest',
      value = pre' ++ tok' ++ rest' -> Re.lang number_re tok' ->
      (String.length pre <= String.length pre')%nat) /\
  (forall tok' rest',
      tok ++ rest = tok' ++ rest' -> Re.lang number_re tok' ->
      (String.length tok' <= String.length tok)%nat).

(** Numeric token parsing, in the words of the specification: the first
    number of the text, converted, and nothing when the text has none. *)
Definition parses_first_number (f : string -> option float) : Prop :=
  (forall value pre tok rest,
      first_number value pre tok rest -> f value = Py.float tok) /\
  (forall value,
      (forall pre tok rest,
          value = pre ++ tok ++ rest -> ~ Re.lang number_re tok) ->
      f value = None).

(** * Properties *)

(** ** Strings *)

Lemma append_nil_r (s : string) : s ++ "" = s.
Proof. induction s as [|c s IH]; simpl; [reflexivity | now rewrite IH]. Qed.

Lemma append_assoc (s1 s2 s3 : string) : (s1 ++ s2) ++ s3 = s1 ++ s2 ++ s3.
Proof. induction s1 as [|c s1 IH]; simpl; [reflexivity | now rewrite IH]. Qed.

Lemma append_length (s1 s2 : string) :
  String.length (s1 ++ s2) = (String.length s1 + String.length s2)%nat.
Proof. induction s1 as [|c s1 IH]; simpl; [reflexivity | now rewrite IH]. Qed.

Lemma omap_cons {A B : Type} (f : A -> option B) (x : A) (l : list A) :
  omap f (x :: l)
  = match f x with Some y => y :: omap f l | None => omap f l end.
Proof. reflexivity. Qed.

Lemma append_eq_nil (s1 s2 : string) : s1 ++ s2 = "" -> s1 = "" /\ s2 = "".
Proof. destruct s1; simpl; [tauto | discriminate]. Qed.

(** ** The matcher finds exactly the language of the pattern *)

Module ReFacts.
Import Re.

Lemma all_append p s1 s2 : all p (s1 ++ s2) = all p s1 && all p s2.
Proof.
  induction s1 as [|c s1 IH]; simpl; [reflexivity |].
  rewrite IH. now rewrite andb_assoc.
Qed.

Lemma in_cons_fst c x l :
  In x (map (cons_fst c) l) <->
  exists m rest, x = (String c m, rest) /\ In (m, rest) l.
Proof.
  rewrite in_map_iff. split.
  - intros [[m rest] [<- Hin]]. now exists m, rest.
  - intros (m & rest & -> & Hin). now exists (m, rest).
Qed.

Lemma star_spec p s m rest :
  In (m, rest) (star p s) <-> s = m ++ rest /\ all p m = true.
Proof.
  revert m rest. induction s as [|c s IH]; intros m rest; simpl.
  - split.
    + intros [[= <- <-] | []]. now split.
    + intros [H _]. symmetry in H. apply append_eq_nil in H as [-> ->].
      now left.
  - destruct (p c) eqn:Hp.
    + rewrite in_app_iff, in_cons_fst. split.
      * intros [(m' & rest' & [= -> ->] & Hin) | [[= <- <-] | []]].
        -- apply IH in Hin as [-> Hall]. simpl. now rewrite Hp, Hall.
        -- now split.
      * intros [Heq Hall]. destruct m as [|c' m]; simpl in *.
        -- right. left. now subst.
        -- injection Heq as <- ->. apply andb_prop in Hall as [_ Hall].
           left. exists m, rest. split; [reflexivity |]. now apply IH.
    + split.
      * intros [[= <- <-] | []]. now split.
      * intros [Heq Hall]. destruct m as [|c' m]; simpl in *.
        -- left. now subst.
        -- injection Heq as <- ->. rewrite Hp in Hall. discriminate.
Qed.

(** Soundness and completeness of [matches]. *)
Lemma matches_spec r s m rest :
  In (m, rest) (matches r s) <-> s = m ++ rest /\ lang r m.
Proof.
  revert s m rest. induction r as [p | r IH | p | p | r1 IH1 r2 IH2];
    intros s m rest; simpl.
  - destruct s as [|c s]; [|destruct (p c) eqn:Hp]; simpl.
    + split; [intros [] | intros [H (c & -> & _)]; discriminate].
    + split.
      * intros [[= <- <-] | []]. split; [reflexivity | now exists c].
      * intros [H (c' & -> & _)]. injection H as <- <-. now left.
    + split; [intros [] |].
      intros [H (c' & -> & Hc)]. injection H as <- <-. congruence.
  - rewrite in_app_iff, IH. simpl. split.
    + intros [[-> H] | [[= <- <-] | []]]; [now split; [|right] |].
      split; [reflexivity | now left].
    + intros [-> [-> | H]]; [right; now left | now left].
  - apply star_spec.
  - destruct s as [|c s]; [|destruct (p c) eqn:Hp]; simpl.
    + split; [intros [] |]. intros [H [Hne _]].
      symmetry in H. apply append_eq_nil in H as [-> _]. now elim Hne.
    + rewrite in_cons_fst. split.
      * intros (m' & rest' & [= -> ->] & Hin).
        apply star_spec in Hin as [-> Hall]. simpl. rewrite Hp, Hall.
        repeat split. discriminate.
      * intros [Heq [Hne Hall]]. destruct m as [|c' m]; [now elim Hne |].
        simpl in *. injection Heq as <- ->.
        apply andb_prop in Hall as [_ Hall].
        exists m, rest. split; [reflexivity |]. now apply star_spec.
    + split; [intros [] |]. intros [Heq [Hne Hall]].
      destruct m as [|c' m]; [now elim Hne |].
      simpl in *. injection Heq as <- ->. rewrite Hp in Hall. discriminate.
  - rewrite in_flat_map. split.
    + intros ([m1 s1] & H1 & H2). apply in_map_iff in H2 as ([m2 s2] & Heq & H2).
      simpl in *. injection Heq as <- <-.
      apply IH1 in H1 as [-> L1]. apply IH2 in H2 as [-> L2].
      split; [now rewrite append_assoc | now exists m1, m2].
    + intros [-> (m1 & m2 & -> & L1 & L2)].
      exists (m1, m2 ++ rest). split.
      * apply IH1. split; [now rewrite append_assoc | assumption].
      * apply in_map_iff. exists (m2, rest). split; [reflexivity |].
        now apply IH2.
Qed.

(** No match at all: no part of the text is in the language. *)
Lemma search_None r s :
  search r s = None <->
  forall pre m rest, s = pre ++ m ++ rest -> ~ lang r m.
Proof.
  induction s as [|c s IH]; simpl.
  - destruct (matches r "") as [|[m rest] l] eqn:Hm.
    + split; [|reflexivity]. intros _ pre m rest Heq L.
      symmetry in Heq. apply append_eq_nil in Heq as [-> Heq].
      assert (In (m, rest) (matches r "")) as Hin
        by (apply matches_spec; now split).
      now rewrite Hm in Hin.
    + split; [discriminate |]. intros H. exfalso.
      assert (In (m, rest) (matches r "")) as Hin by (rewrite Hm; now left).
      apply matches_spec in Hin as [Heq L]. now apply (H "" m rest).
  - destruct (matches r (String c s)) as [|[m rest] l] eqn:Hm.
    + destruct (search r s) as [[[pre m] rest]|] eqn:Hs.
      * split; [discriminate |]. intros H.
        assert (Some (pre, m, rest) = None) as Hn; [|discriminate].
        apply IH. intros pre' m' rest' -> L.
        now apply (H (String c pre') m' rest').
      * split; [|reflexivity]. intros _ pre m rest Heq L.
        destruct pre as [|c' pre]; simpl in Heq.
        -- assert (In (m, rest) (matches r (String c s))) as Hin
             by (apply matches_spec; now split).
           now rewrite Hm in Hin.
        -- injection Heq as <- ->.
           now apply (proj1 IH eq_refl pre m rest).
    + split; [discriminate |]. intros H. exfalso.
      assert (In (m, rest) (matches r (String c s))) as Hin
        by (rewrite Hm; now left).
      apply matches_spec in Hin as [Heq L]. now apply (H "" m rest).
Qed.

(** A match: the text splits around a word of the language, and no word
    of the language starts further to the left. *)
Lemma search_Some r s pre m rest :
  search r s = Some (pre, m, rest) ->
  s = pre ++ m ++ rest /\ lang r m /\
  forall pre' m' rest',
    s = pre' ++ m' ++ rest' -> lang r m' ->
    (String.length pre <= String.length pre')%nat.
Proof.
  revert pre. induction s as [|c s IH]; intros pre; simpl.
  - destruct (matches r "") as [|[m0 rest0] l] eqn:Hm; [discriminate |].
    intros [= <- <- <-].
    assert (In (m0, rest0) (matches r "")) as Hin by (rewrite Hm; now left).
    apply matches_spec in Hin as [Heq L].
    repeat split; [assumption | assumption | simpl; lia].
  - destruct (matches r (String c s)) as [|[m0 rest0] l] eqn:Hm.
    + destruct (search r s) as [[[pre0 m0] rest0]|] eqn:Hs; [|discriminate].
      intros [= <- <- <-].
      destruct (IH pre0 eq_refl) as (-> & L & Hleft).
      repeat split; [assumption |].
      intros pre' m' rest' Heq L'.
      destruct pre' as [|c' pre']; simpl in Heq.
      * assert (In (m', rest') (matches r (String c (pre0 ++ m0 ++ rest0))))
          as Hin by (apply matches_spec; now split).
        now rewrite Hm in Hin.
      * injection Heq as <- Heq. simpl.
        apply le_n_S. now apply (Hleft pre' m' rest').
    + intros [= <- <- <-].
      assert (In (m0, rest0) (matches r (String c s))) as Hin
        by (rewrite Hm; now left).
      apply matches_spec in Hin as [Heq L].
      repeat split; [assumption | assumption | simpl; lia].
Qed.

End ReFacts.

(** ** [float] never fails on what the pattern matches *)

Module CleanFacts.
Import Re Py ReFacts.

Lemma digit_not_sign c : is_digit c = true -> is_sign c = false.
Proof.
  intros Hd. unfold is_sign.
  destruct (Ascii.eqb_spec c "-") as [-> | _]; [discriminate Hd |].
  destruct (Ascii.eqb_spec c "+") as [-> | _]; [discriminate Hd |].
  reflexivity.
Qed.

Lemma dot_not_digit c : is_dot c = true -> is_digit c = false.
Proof.
  unfold is_dot. destruct (Ascii.eqb_spec c ".") as [-> | _];
    [reflexivity | discriminate].
Qed.

Lemma dot_not_sign c : is_dot c = true -> is_sign c = false.
Proof.
  unfold is_dot. destruct (Ascii.eqb_spec c ".") as [-> | _];
    [reflexivity | discriminate].
Qed.

Lemma digit_not_dot c : is_digit c = true -> is_dot c = false.
Proof.
  intros Hd. destruct (is_dot c) eqn:H; [|reflexivity].
  apply dot_not_digit in H. congruence.
Qed.

Lemma read_digits_run d rest acc n :
  all is_digit d = true -> stops is_digit rest = true ->
  exists v, read_digits (d ++ rest) acc n
            = (v, (n + String.length d)%nat, rest).
Proof.
  revert acc n. induction d as [|c d IH]; intros acc n Hall Hstop; simpl.
  - exists acc. replace (n + 0)%nat with n by lia.
    destruct rest as [|c rest]; [reflexivity |].
    simpl in Hstop |- *. apply negb_true_iff in Hstop. now rewrite Hstop.
  - simpl in Hall. apply andb_prop in Hall as [Hc Hall]. rewrite Hc.
    destruct (IH (10 * acc + digit_value c) (S n) Hall Hstop) as [v Hv].
    exists v. rewrite Hv.
    now replace (S n + String.length d)%nat
      with (n + S (String.length d))%nat by lia.
Qed.

Lemma float_unsigned_digits neg ip fp :
  all is_digit ip = true -> all is_digit fp = true -> fp <> "" ->
  is_Some (float_unsigned neg (ip ++ fp)).
Proof.
  intros Hip Hfp Hne. unfold float_unsigned.
  destruct (read_digits_run (ip ++ fp) "" 0 0) as [v Hv];
    [rewrite all_append, Hip, Hfp; reflexivity | reflexivity |].
  rewrite append_nil_r in Hv. rewrite Hv. simpl.
  destruct fp as [|c fp]; [now elim Hne |].
  rewrite append_length. simpl.
  replace (String.length ip + S (String.length fp))%nat
    with (S (String.length ip + String.length fp)) by lia.
  simpl. eauto.
Qed.

Lemma float_unsigned_point neg ip c fp :
  all is_digit ip = true -> is_dot c = true ->
  all is_digit fp = true -> fp <> "" ->
  is_Some (float_unsigned neg (ip ++ String c fp)).
Proof.
  intros Hip Hc Hfp Hne. unfold float_unsigned.
  destruct (read_digits_run ip (String c fp) 0 0) as [v Hv];
    [assumption | simpl; now rewrite (dot_not_digit c Hc) |].
  rewrite Hv, Hc.
  destruct (read_digits_run fp "" v 0) as [m Hm];
    [assumption | reflexivity |].
  rewrite append_nil_r in Hm. rewrite Hm.
  destruct fp as [|c' fp]; [now elim Hne |]. simpl.
  replace (String.length ip + S (String.length fp))%nat
    with (S (String.length ip + String.length fp)) by lia.
  simpl. eauto.
Qed.

(** The shape of a word of the pattern, without its sign. *)
Lemma unsigned_shape body :
  lang (Cat (Star is_digit) (Cat (Opt (Cls is_dot)) (Plus is_digit))) body ->
  exists ip fp,
    all is_digit ip = true /\ all is_digit fp = true /\ fp <> "" /\
    (body = ip ++ fp \/ exists c, is_dot c = true /\ body = ip ++ String c fp).
Proof.
  simpl. intros (ip & m & -> & Hip & dt & fp & -> & Hdt & Hne & Hfp).
  exists ip, fp. repeat split; try assumption.
  destruct Hdt as [-> | (c & -> & Hc)]; [now left |].
  right. now exists c.
Qed.

Lemma float_unsigned_token neg body :
  lang (Cat (Star is_digit) (Cat (Opt (Cls is_dot)) (Plus is_digit))) body ->
  is_Some (float_unsigned neg body).
Proof.
  intros L. apply unsigned_shape in L
    as (ip & fp & Hip & Hfp & Hne & [-> | (c & Hc & ->)]).
  - now apply float_unsigned_digits.
  - now apply float_unsigned_point.
Qed.

(** [float] succeeds on every word of the pattern: the [except
    ValueError] branch of [_clean] is never taken. *)
Lemma float_of_token tok : lang number_re tok -> is_Some (Py.float tok).
Proof.
  intros (sg & body & -> & Hsg & L).
  destruct Hsg as [-> | (c & -> & Hc)]; simpl.
  - pose proof (float_unsigned_token false body L) as Hsome.
    apply unsigned_shape in L
      as (ip & fp & Hip & Hfp & Hne & [-> | (c & Hc & ->)]).
    + destruct ip as [|d ip]; simpl in *.
      * destruct fp as [|d fp]; [now elim Hne |]. simpl in *.
        apply andb_prop in Hfp as [Hd _].
        now rewrite (digit_not_sign d Hd).
      * apply andb_prop in Hip as [Hd _].
        now rewrite (digit_not_sign d Hd).
    + destruct ip as [|d ip]; simpl in *.
      * now rewrite (dot_not_sign c Hc).
      * apply andb_prop in Hip as [Hd _].
        now rewrite (digit_not_sign d Hd).
  - rewrite Hc. now apply float_unsigned_token.
Qed.

Lemma any_append p s1 s2 : any p (s1 ++ s2) = any p s1 || any p s2.
Proof.
  induction s1 as [|c s1 IH]; simpl; [reflexivity |].
  rewrite IH. now rewrite orb_assoc.
Qed.

Lemma all_nonempty_any p s : s <> "" -> all p s = true -> any p s = true.
Proof.
  destruct s as [|c s]; [congruence |]. simpl.
  intros _ H. apply andb_prop in H as [-> _]. reflexivity.
Qed.

(** What [read_digits] has read is a run of digits in front of the rest. *)
Lemma read_digits_split s acc n :
  exists d, s = d ++ snd (read_digits s acc n) /\ all is_digit d = true /\
            snd (fst (read_digits s acc n)) = (n + String.length d)%nat.
Proof.
  revert acc n. induction s as [|c s IH]; intros acc n; simpl.
  - exists "". repeat split. simpl. lia.
  - destruct (is_digit c) eqn:Hc.
    + destruct (IH (10 * acc + digit_value c) (S n)) as (d & Heq & Hall & Hn).
      exists (String c d). simpl. rewrite Hc, Hall, Hn.
      repeat split; [now rewrite <- Heq | lia].
    + exists "". repeat split. simpl. lia.
Qed.

(** [float] accepts no text without a digit. *)
Lemma float_unsigned_Some neg body x :
  float_unsigned neg body = Some x -> any is_digit body = true.
Proof.
  unfold float_unsigned.
  destruct (read_digits_split body 0 0) as (d & Heq & Hd & Hn).
  destruct (read_digits body 0 0) as [[ip n1] r1]. simpl in Heq, Hn.
  subst body. rewrite any_append. destruct d as [|c d].
  - subst n1. simpl. destruct r1 as [|c r2]; [discriminate |].
    destruct (is_dot c); [|discriminate].
    destruct (read_digits_split r2 ip 0) as (d2 & Heq2 & Hd2 & Hn2).
    destruct (read_digits r2 ip 0) as [[m n2] r3]. simpl in Heq2, Hn2.
    destruct r3; [|discriminate]. subst r2 n2. rewrite append_nil_r.
    destruct d2 as [|c2 d2]; [discriminate |]. intros _.
    change (is_digit c || any is_digit (String c2 d2) = true).
    rewrite (all_nonempty_any is_digit (String c2 d2));
      [apply orb_true_r | discriminate | exact Hd2].
  - intros _. now rewrite (all_nonempty_any is_digit (String c d)).
Qed.

Lemma float_Some_has_digit t x : Py.float t = Some x -> any is_digit t = true.
Proof.
  destruct t as [|c r]; simpl float; [apply float_unsigned_Some |].
  destruct (is_sign c); [|apply float_unsigned_Some].
  intros H. apply float_unsigned_Some in H. simpl. rewrite H.
  now rewrite orb_true_r.
Qed.

(** A text with a digit in it has a part that the pattern matches. *)
Lemma any_digit_split s :
  any is_digit s = true ->
  exists pre c rest, s = pre ++ String c "" ++ rest /\ is_digit c = true.
Proof.
  induction s as [|c s IH]; simpl; [discriminate |].
  destruct (is_digit c) eqn:Hc; simpl.
  - intros _. now exists "", c, s.
  - intros H. destruct (IH H) as (pre & d & rest & -> & Hd).
    now exists (String c pre), d, rest.
Qed.

Lemma digit_is_token c : is_digit c = true -> lang number_re (String c "").
Proof.
  intros Hc. exists "", (String c ""). repeat split; [now left |].
  exists "", (String c ""). repeat split.
  exists "", (String c ""). repeat split; [now left | discriminate |].
  simpl. now rewrite Hc.
Qed.

Lemma token_has_digit tok : lang number_re tok -> any is_digit tok = true.
Proof.
  intros (sg & body & -> & _ & ip & m & -> & _ & dt & fp & -> & _ & Hne & Hfp).
  rewrite !any_append, (all_nonempty_any _ fp Hne Hfp).
  now rewrite !orb_true_r.
Qed.

(** [_clean] answers [None] exactly on the texts without a digit. *)
Lemma clean_None_iff value :
  _clean value = None <-> any is_digit value = false.
Proof.
  unfold _clean. split.
  - intros H. destruct (any is_digit value) eqn:Hany; [|reflexivity].
    exfalso. destruct value as [|c0 s0]; [discriminate Hany |].
    simpl negb in H. cbv iota in H.
    destruct (any_digit_split _ Hany) as (pre & c & rest & Heq & Hc).
    destruct (search number_re (String c0 s0)) as [[[pre' tok] rest']|] eqn:Hs.
    + apply search_Some in Hs as (_ & L & _).
      apply float_of_token in L as [x Hx]. congruence.
    + apply (proj1 (search_None _ _) Hs pre (String c "") rest Heq).
      now apply digit_is_token.
  - intros Hany. destruct value as [|c0 s0]; [reflexivity |]. simpl negb.
    cbv iota.
    destruct (search number_re (String c0 s0)) as [[[pre tok] rest]|] eqn:Hs;
      [|reflexivity].
    apply search_Some in Hs as (Heq & L & _).
    apply token_has_digit in L.
    rewrite Heq, !any_append, L in Hany.
    rewrite orb_true_l, orb_true_r in Hany. discriminate.
Qed.

(** What [_clean] returns is [float] of the leftmost part of the text
    that the pattern matches. *)
Lemma clean_Some value x :
  _clean value = Some x ->
  exists pre tok rest,
    value = pre ++ tok ++ rest /\ lang number_re tok /\
    Py.float tok = Some x /\
    forall pre' tok' rest',
      value = pre' ++ tok' ++ rest' -> lang number_re tok' ->
      (String.length pre <= String.length pre')%nat.
Proof.
  unfold _clean. destruct (negb (truthy value)); [discriminate |].
  destruct (search number_re value) as [[[pre tok] rest]|] eqn:Hs;
    [|discriminate].
  intros Hx. apply search_Some in Hs as (Heq & L & Hleft).
  now exists pre, tok, rest.
Qed.

End CleanFacts.

(** ** The first match, read off the text *)

Module FirstMatch.
Import Re Py ReFacts CleanFacts.

Lemma star_stops p s : stops p s = true -> star p s = [("", s)].
Proof.
  destruct s as [|c s]; simpl; [reflexivity |].
  intros H. apply negb_true_iff in H. now rewrite H.
Qed.

Lemma plus_stops p s : stops p s = true -> matches (Plus p) s = [].
Proof.
  destruct s as [|c s]; simpl; [reflexivity |].
  intros H. apply negb_true_iff in H. now rewrite H.
Qed.

Lemma star_head p m rest :
  all p m = true -> stops p rest = true ->
  exists l, star p (m ++ rest) = (m, rest) :: l.
Proof.
  intros Hall Hstop. induction m as [|c m IH]; simpl.
  - exists []. now apply star_stops.
  - simpl in Hall. apply andb_prop in Hall as [Hc Hall]. rewrite Hc.
    destruct (IH Hall) as [l ->]. simpl. eauto.
Qed.

(** The two longest ways to match [p*] before a text that stops it. *)
Lemma star_head2 p m d rest :
  all p m = true -> p d = true -> stops p rest = true ->
  exists l, star p (m ++ String d rest)
            = (m ++ String d "", rest) :: (m, String d rest) :: l.
Proof.
  intros Hall Hd Hstop. induction m as [|c m IH]; simpl.
  - rewrite Hd, (star_stops p rest Hstop). simpl. eauto.
  - simpl in Hall. apply andb_prop in Hall as [Hc Hall]. rewrite Hc.
    destruct (IH Hall) as [l ->]. simpl. eauto.
Qed.

Lemma plus_head p m rest :
  m <> "" -> all p m = true -> stops p rest = true ->
  exists l, matches (Plus p) (m ++ rest) = (m, rest) :: l.
Proof.
  intros Hne Hall Hstop. destruct m as [|c m]; [now elim Hne |].
  simpl in *. apply andb_prop in Hall as [Hc Hall]. rewrite Hc.
  destruct (star_head p m rest Hall Hstop) as [l ->]. simpl. eauto.
Qed.

Lemma cat_head r1 r2 s m1 s1 l1 m2 s2 l2 :
  matches r1 s = (m1, s1) :: l1 -> matches r2 s1 = (m2, s2) :: l2 ->
  exists l, matches (Cat r1 r2) s = (m1 ++ m2, s2) :: l.
Proof. intros H1 H2. simpl. rewrite H1. simpl. rewrite H2. simpl. eauto. Qed.

Lemma search_head r s m rest l :
  matches r s = (m, rest) :: l -> search r s = Some ("", m, rest).
Proof. intros H. destruct s; simpl; now rewrite H. Qed.

Lemma snoc_split (s : string) :
  s <> "" -> exists s' c, s = s' ++ String c "".
Proof.
  induction s as [|c s IH]; [congruence |]. intros _.
  destruct s as [|c' s].
  - now exists "", c.
  - destruct IH as (s' & d & ->); [discriminate |].
    now exists (String c s'), d.
Qed.

(** A number with a point, then text that does not go on with a digit. *)
Lemma unsigned_head_point ip fp rest :
  all is_digit ip = true -> all is_digit fp = true -> fp <> "" ->
  stops is_digit rest = true ->
  exists l, matches unsigned_re (ip ++ "." ++ fp ++ rest)
            = (ip ++ "." ++ fp, rest) :: l.
Proof.
  intros Hip Hfp Hne Hstop.
  destruct (star_head is_digit ip ("." ++ fp ++ rest) Hip eq_refl) as [l1 H1].
  destruct (plus_head is_digit fp rest Hne Hfp Hstop) as [l2 H2].
  destruct (cat_head (Opt (Cls is_dot)) (Plus is_digit)
              ("." ++ fp ++ rest) "." (fp ++ rest) [("", "." ++ fp ++ rest)]
              fp rest l2 eq_refl H2) as [l3 H3].
  destruct (cat_head (Star is_digit) tail_re _ _ _ _ _ _ _ H1 H3) as [l H].
  exists l. exact H.
Qed.

Lemma tail_re_fails rest : ends_number rest = true -> matches tail_re rest = [].
Proof.
  destruct rest as [|c r]; [reflexivity |]. simpl.
  intros H. apply andb_prop in H as [Hc H]. apply negb_true_iff in Hc.
  destruct (is_dot c); simpl in *; rewrite Hc; [|reflexivity].
  pose proof (plus_stops is_digit r H) as Hr. simpl in Hr. now rewrite Hr.
Qed.

Lemma tail_re_digit d rest :
  is_digit d = true -> stops is_digit rest = true ->
  matches tail_re (String d rest) = [(String d "", rest)].
Proof.
  intros Hd Hstop. simpl. rewrite (digit_not_dot d Hd). simpl.
  rewrite Hd, (star_stops _ rest Hstop). reflexivity.
Qed.

Lemma ends_number_stops rest :
  ends_number rest = true -> stops is_digit rest = true.
Proof.
  destruct rest as [|c r]; [reflexivity |]. simpl.
  intros H. now apply andb_prop in H as [-> _].
Qed.

(** A number without a point: the matcher first takes every digit for
    [[0-9]*], finds nothing left for [[0-9]+], and gives the last digit
    back. *)
Lemma unsigned_head_digits ip rest :
  all is_digit ip = true -> ip <> "" -> ends_number rest = true ->
  exists l, matches unsigned_re (ip ++ rest) = (ip, rest) :: l.
Proof.
  intros Hip Hne Hend.
  pose proof (ends_number_stops rest Hend) as Hstop.
  destruct (snoc_split ip Hne) as (ip' & d & ->).
  rewrite all_append in Hip. apply andb_prop in Hip as [Hip' Hd].
  simpl in Hd. rewrite andb_true_r in Hd.
  rewrite append_assoc. simpl String.append at 2.
  destruct (star_head2 is_digit ip' d rest Hip' Hd Hstop) as [l1 H1].
  unfold unsigned_re. cbn [matches]. rewrite H1. cbn [flat_map fst snd].
  rewrite (tail_re_fails rest Hend), (tail_re_digit d rest Hd Hstop).
  simpl. eauto.
Qed.

(** With the sign in front. *)
Lemma signed_head sg body tok rest l :
  sg = "" \/ sg = "+" \/ sg = "-" ->
  stops is_sign body = true ->
  matches unsigned_re body = (tok, rest) :: l ->
  exists l', matches number_re (sg ++ body) = (sg ++ tok, rest) :: l'.
Proof.
  intros Hsg Hbody H.
  assert (exists l0, matches (Opt (Cls is_sign)) (sg ++ body)
                     = (sg, body) :: l0) as [l0 H0].
  { destruct Hsg as [-> | [-> | ->]]; simpl; eauto.
    destruct body as [|c body]; simpl; eauto.
    simpl in Hbody. apply negb_true_iff in Hbody. rewrite Hbody. eauto. }
  exact (cat_head _ _ _ _ _ _ _ _ _ H0 H).
Qed.

Lemma truthy_append_r s1 s2 : s2 <> "" -> truthy (s1 ++ s2) = true.
Proof.
  destruct s1; simpl; [|reflexivity]. destruct s2; [congruence | reflexivity].
Qed.

Lemma all_digit_stops_sign s rest :
  all is_digit s = true -> s <> "" -> stops is_sign (s ++ rest) = true.
Proof.
  destruct s as [|c s]; [congruence |]. simpl.
  intros H _. apply andb_prop in H as [Hc _].
  now rewrite (digit_not_sign c Hc).
Qed.

(** [_clean] on a decimal number followed by a unit or other text. *)
Lemma clean_point_then_text sg ip fp rest :
  sg = "" \/ sg = "+" \/ sg = "-" ->
  all is_digit ip = true -> all is_digit fp = true -> fp <> "" ->
  stops is_digit rest = true ->
  _clean (sg ++ ip ++ "." ++ fp ++ rest) = Py.float (sg ++ ip ++ "." ++ fp).
Proof.
  intros Hsg Hip Hfp Hne Hstop.
  destruct (unsigned_head_point ip fp rest Hip Hfp Hne Hstop) as [l H].
  assert (stops is_sign (ip ++ "." ++ fp ++ rest) = true) as Hbody.
  { destruct ip as [|c ip]; [reflexivity |].
    now apply all_digit_stops_sign. }
  destruct (signed_head sg _ _ _ _ Hsg Hbody H) as [l' H'].
  unfold _clean.
  rewrite truthy_append_r.
  - simpl negb. cbv iota. now rewrite (search_head _ _ _ _ _ H').
  - destruct ip; discriminate.
Qed.

(** [_clean] on a whole number followed by a unit or other text. *)
Lemma clean_digits_then_text sg ip rest :
  sg = "" \/ sg = "+" \/ sg = "-" ->
  all is_digit ip = true -> ip <> "" -> ends_number rest = true ->
  _clean (sg ++ ip ++ rest) = Py.float (sg ++ ip).
Proof.
  intros Hsg Hip Hne Hend.
  destruct (unsigned_head_digits ip rest Hip Hne Hend) as [l H].
  pose proof (all_digit_stops_sign ip rest Hip Hne) as Hbody.
  destruct (signed_head sg _ _ _ _ Hsg Hbody H) as [l' H'].
  unfold _clean. rewrite truthy_append_r.
  - simpl negb. cbv iota. now rewrite (search_head _ _ _ _ _ H').
  - destruct ip; [congruence | discriminate].
Qed.

End FirstMatch.

(** ** The first match is the longest word where it starts *)

Module LongestMatch.
Import Re Py ReFacts CleanFacts FirstMatch.

(** A text splits after its longest run of characters of a class. *)
Lemma run_split p s :
  exists d r, s = d ++ r /\ all p d = true /\ stops p r = true.
Proof.
  induction s as [|c s IH].
  - now exists "", "".
  - destruct (p c) eqn:Hc.
    + destruct IH as (d & r & -> & Hd & Hr).
      exists (String c d), r. simpl. now rewrite Hc, Hd.
    + exists "", (String c s). simpl. now rewrite Hc.
Qed.

(** Any run of the class at the start of a text lies within the longest. *)
Lemma run_compare p d1 r1 D R :
  d1 ++ r1 = D ++ R -> all p d1 = true -> all p D = true ->
  stops p R = true ->
  exists d2, D = d1 ++ d2 /\ r1 = d2 ++ R.
Proof.
  revert D. induction d1 as [|c d1 IH]; intros D Heq H1 HD HR.
  - exists D. now split.
  - simpl in H1. apply andb_prop in H1 as [Hc H1].
    destruct D as [|c' D]; simpl in Heq.
    + subst R. simpl in HR. rewrite Hc in HR. discriminate.
    + injection Heq as <- Heq. simpl in HD.
      apply andb_prop in HD as [_ HD].
      destruct (IH D Heq H1 HD HR) as (d2 & -> & ->). now exists d2.
Qed.

Lemma is_dot_eq c : is_dot c = true -> c = "."%char.
Proof. unfold is_dot. now destruct (Ascii.eqb_spec c "."). Qed.

Lemma ends_number_false R :
  stops is_digit R = true -> ends_number R = false ->
  exists R', R = String "." R' /\ stops is_digit R' = false.
Proof.
  destruct R as [|c R']; [discriminate |]. simpl. intros Hc H.
  rewrite Hc in H. simpl in H.
  destruct (is_dot c) eqn:Hdot; simpl in H; [|discriminate].
  apply is_dot_eq in Hdot. subst c. now exists R'.
Qed.

(** A word with a point, at the start of a text whose digits are [D]:
    the digits before the point are all of [D]. *)
Lemma point_word_split ip c fp r D R :
  (ip ++ String c fp) ++ r = D ++ R ->
  all is_digit ip = true -> is_dot c = true ->
  all is_digit D = true -> stops is_digit R = true ->
  D = ip /\ R = String "." (fp ++ r).
Proof.
  intros Heq Hip Hc HD HR. rewrite append_assoc in Heq. simpl in Heq.
  destruct (run_compare is_digit ip _ D R Heq Hip HD HR) as (d2 & -> & Hr).
  destruct d2 as [|d d2]; simpl in Hr.
  - rewrite append_nil_r. split; [reflexivity |].
    apply is_dot_eq in Hc. now subst.
  - injection Hr as <- _. rewrite all_append in HD.
    apply andb_prop in HD as [_ HD]. simpl in HD.
    apply andb_prop in HD as [Hd _].
    rewrite (dot_not_digit c Hc) in Hd. discriminate.
Qed.

Lemma stops_append_digit fp r :
  all is_digit fp = true -> fp <> "" -> stops is_digit (fp ++ r) = false.
Proof.
  destruct fp as [|d fp]; [congruence |]. simpl.
  intros H _. apply andb_prop in H as [-> _]. reflexivity.
Qed.

(** Of the words of the pattern without sign that start a text, the first
    that the matcher finds is the longest. *)
Lemma unsigned_longest body tok rest l :
  matches unsigned_re body = (tok, rest) :: l ->
  forall w r,
    body = w ++ r -> lang unsigned_re w ->
    (String.length w <= String.length tok)%nat.
Proof.
  intros Hhead w r Hbody L.
  destruct (run_split is_digit body) as (D & R & HDR & HD & HR).
  apply unsigned_shape in L
    as (ip & fp & Hip & Hfp & Hne & [-> | (c & Hc & ->)]).
  - (* a word of digits lies within the digits of the text *)
    assert (all is_digit (ip ++ fp) = true) as Hw
      by now rewrite all_append, Hip, Hfp.
    rewrite Hbody in HDR.
    destruct (run_compare is_digit _ r D R HDR Hw HD HR) as (d2 & -> & ->).
    rewrite <- append_assoc in Hbody.
    assert ((ip ++ fp) ++ d2 <> "") as HDne
      by (destruct ip; [destruct fp; [congruence | discriminate]
                       | discriminate]).
    destruct (ends_number R) eqn:Hend.
    + (* the text has no point and digit after its digits *)
      destruct (unsigned_head_digits ((ip ++ fp) ++ d2) R HD HDne Hend)
        as [l' Hhead'].
      rewrite Hbody, Hhead' in Hhead.
      assert (tok = (ip ++ fp) ++ d2) as -> by congruence.
      rewrite !append_length. lia.
    + (* a point and digits follow: the match goes on over them *)
      destruct (ends_number_false R HR Hend) as (R' & -> & HR').
      destruct (run_split is_digit R') as (F & R'' & -> & HF & HR'').
      assert (F <> "") as HFne
        by (intros ->; simpl in HR'; congruence).
      destruct (unsigned_head_point ((ip ++ fp) ++ d2) F R'' HD HF HFne HR'')
        as [l' Hhead'].
      rewrite Hbody in Hhead.
      change (String "." (F ++ R'')) with ("." ++ F ++ R'') in Hhead.
      rewrite Hhead' in Hhead.
      assert (tok = ((ip ++ fp) ++ d2) ++ "." ++ F) as -> by congruence.
      rewrite !append_length. lia.
  - (* a word with a point *)
    rewrite Hbody in HDR.
    destruct (point_word_split ip c fp r D R HDR Hip Hc HD HR) as [-> ->].
    apply is_dot_eq in Hc. subst c.
    destruct (run_split is_digit (fp ++ r)) as (F & R'' & HF' & HF & HR'').
    destruct (run_compare is_digit fp r F R'' HF' Hfp HF HR'')
      as (d3 & -> & ->).
    assert (fp ++ d3 <> "") as HFne by (destruct fp; [congruence | discriminate]).
    destruct (unsigned_head_point ip (fp ++ d3) R'' Hip HF HFne HR'')
      as [l' Hhead'].
    rewrite Hbody in Hhead.
    assert ((ip ++ String "." fp) ++ d3 ++ R''
            = ip ++ "." ++ (fp ++ d3) ++ R'') as Hre
      by (rewrite HDR, HF'; reflexivity).
    rewrite Hre, Hhead' in Hhead.
    assert (tok = ip ++ "." ++ fp ++ d3) as -> by congruence.
    repeat (rewrite ?append_length; simpl). lia.
Qed.

(** A word without sign starts with a digit or a point. *)
Lemma unsigned_stops_sign u : lang unsigned_re u -> stops is_sign u = true.
Proof.
  intros L. apply unsigned_shape in L
    as (ip & fp & Hip & Hfp & Hne & [-> | (c & Hc & ->)]).
  - destruct ip as [|d ip]; simpl in *.
    + destruct fp as [|d fp]; [congruence |]. simpl in *.
      apply andb_prop in Hfp as [Hd _]. now rewrite (digit_not_sign d Hd).
    + apply andb_prop in Hip as [Hd _]. now rewrite (digit_not_sign d Hd).
  - destruct ip as [|d ip]; simpl in *.
    + now rewrite (dot_not_sign c Hc).
    + apply andb_prop in Hip as [Hd _]. now rewrite (digit_not_sign d Hd).
Qed.

Lemma matches_nonempty r s m rest :
  s = m ++ rest -> lang r m -> exists x l, matches r s = x :: l.
Proof.
  intros Heq L.
  assert (In (m, rest) (matches r s)) as Hin by (apply matches_spec; now split).
  destruct (matches r s) as [|x l]; [contradiction | eauto].
Qed.

Lemma matches_Cat r1 r2 s :
  matches (Cat r1 r2) s
  = flat_map (fun x =>
                map (fun y => (fst x ++ fst y, snd y)) (matches r2 (snd x)))
             (matches r1 s).
Proof. reflexivity. Qed.

(** The same with the sign. *)
Lemma number_longest s tok rest l :
  matches number_re s = (tok, rest) :: l ->
  forall w r,
    s = w ++ r -> lang number_re w ->
    (String.length w <= String.length tok)%nat.
Proof.
  intros Hhead w r Hs (sg & u & -> & Hsg & L).
  change (lang unsigned_re u) in L.
  pose proof (unsigned_stops_sign u L) as Hu.
  change (matches (Cat (Opt (Cls is_sign)) unsigned_re) s = (tok, rest) :: l)
    in Hhead.
  destruct Hsg as [-> | (c & -> & Hc)].
  - (* no sign in the word: the text does not start with one *)
    simpl in Hs. subst s.
    assert (matches (Opt (Cls is_sign)) (u ++ r) = [("", u ++ r)]) as Hopt.
    { destruct u as [|c u]; simpl in *.
      - destruct r as [|c r]; [reflexivity |].
        apply unsigned_shape in L as (ip & fp & _ & _ & Hne & [H | (c' & _ & H)]);
          symmetry in H; apply append_eq_nil in H as [_ H];
          [congruence | discriminate].
      - apply negb_true_iff in Hu. now rewrite Hu. }
    destruct (matches_nonempty unsigned_re (u ++ r) u r eq_refl L)
      as ([tok0 rest0] & l0 & H0).
    rewrite matches_Cat, Hopt in Hhead. cbn [flat_map fst snd] in Hhead.
    rewrite H0 in Hhead. simpl in Hhead.
    assert (tok = tok0) as -> by congruence.
    exact (unsigned_longest _ _ _ _ H0 u r eq_refl L).
  - (* a sign in the word: the pattern takes it first *)
    simpl in Hs. subst s.
    destruct (matches_nonempty unsigned_re (u ++ r) u r eq_refl L)
      as ([tok0 rest0] & l0 & H0).
    assert (matches (Opt (Cls is_sign)) (String c (u ++ r))
            = [(String c "", u ++ r); ("", String c (u ++ r))]) as Hopt
      by (simpl; now rewrite Hc).
    rewrite matches_Cat, Hopt in Hhead. cbn [flat_map fst snd] in Hhead.
    rewrite H0 in Hhead. simpl in Hhead.
    assert (tok = String c tok0) as -> by congruence.
    simpl. apply le_n_S.
    exact (unsigned_longest _ _ _ _ H0 u r eq_refl L).
Qed.

(** What [search] returns is the first match where it starts. *)
Lemma search_head_inv r s pre m rest :
  search r s = Some (pre, m, rest) ->
  exists l, matches r (m ++ rest) = (m, rest) :: l.
Proof.
  revert pre. induction s as [|c s IH]; intros pre; simpl.
  - destruct (matches r "") as [|[m0 rest0] l] eqn:Hm; [discriminate |].
    intros [= <- <- <-].
    assert (In (m0, rest0) (matches r "")) as Hin by (rewrite Hm; now left).
    apply matches_spec in Hin as [<- _]. eauto.
  - destruct (matches r (String c s)) as [|[m0 rest0] l] eqn:Hm.
    + destruct (search r s) as [[[pre0 m0] rest0]|] eqn:Hs; [|discriminate].
      intros [= <- <- <-]. exact (IH pre0 eq_refl).
    + intros [= <- <- <-].
      assert (In (m0, rest0) (matches r (String c s))) as Hin
        by (rewrite Hm; now left).
      apply matches_spec in Hin as [<- _]. eauto.
Qed.

Lemma append_same_length (a b c d : string) :
  a ++ b = c ++ d -> String.length a = String.length c -> a = c /\ b = d.
Proof.
  revert c. induction a as [|x a IH]; intros c Heq Hlen.
  - destruct c; [now split | discriminate].
  - destruct c as [|y c]; [discriminate |]. simpl in *.
    injection Heq as <- Heq. injection Hlen as Hlen.
    destruct (IH c Heq Hlen) as [-> ->]. now split.
Qed.

(** What [search] finds for the height pattern: a word of the pattern,
    leftmost in the text, and the longest of the words that start there. *)
Lemma search_leftmost_longest value pre tok rest :
  search number_re value = Some (pre, tok, rest) ->
  value = pre ++ tok ++ rest /\ lang number_re tok /\
  (forall pre' tok' rest',
      value = pre' ++ tok' ++ rest' -> lang number_re tok' ->
      (String.length pre <= String.length pre')%nat) /\
  (forall tok' rest',
      tok ++ rest = tok' ++ rest' -> lang number_re tok' ->
      (String.length tok' <= String.length tok)%nat).
Proof.
  intros Hs. destruct (search_head_inv _ _ _ _ _ Hs) as [l Hhead].
  apply search_Some in Hs as (Heq & L & Hleft).
  repeat split; try assumption.
  intros tok' rest' Heq' L'.
  exact (number_longest _ _ _ _ Hhead tok' rest' Heq' L').
Qed.

(** What [_clean] returns is [float] of the longest of the leftmost words
    of the pattern in the text. *)
Lemma clean_Some_longest value x :
  _clean value = Some x ->
  exists pre tok rest,
    value = pre ++ tok ++ rest /\ lang number_re tok /\
    Py.float tok = Some x /\
    (forall pre' tok' rest',
        value = pre' ++ tok' ++ rest' -> lang number_re tok' ->
        (String.length pre <= String.length pre')%nat) /\
    (forall tok' rest',
        tok ++ rest = tok' ++ rest' -> lang number_re tok' ->
        (String.length tok' <= String.length tok)%nat).
Proof.
  unfold _clean. destruct (negb (truthy value)); [discriminate |].
  destruct (search number_re value) as [[[pre tok] rest]|] eqn:Hs;
    [|discriminate].
  intros Hx.
  destruct (search_leftmost_longest _ _ _ _ Hs) as (Heq & L & Hleft & Hlong).
  now exists pre, tok, rest.
Qed.

(** And so the text decides the result: whichever word of the pattern is
    leftmost in it, and longest where it starts, is the one converted. *)
Lemma clean_leftmost_longest value pre tok rest :
  value = pre ++ tok ++ rest -> lang number_re tok ->
  (forall pre' tok' rest',
      value = pre' ++ tok' ++ rest' -> lang number_re tok' ->
      (String.length pre <= String.length pre')%nat) ->
  (forall tok' rest',
      tok ++ rest = tok' ++ rest' -> lang number_re tok' ->
      (String.length tok' <= String.length tok)%nat) ->
  _clean value = Py.float tok.
Proof.
  intros Heq L Hleft Hlong.
  destruct (float_of_token tok L) as [x Hx].
  destruct (_clean value) as [y|] eqn:Hy.
  - apply clean_Some_longest in Hy
      as (pre0 & tok0 & rest0 & Heq0 & L0 & Hy & Hleft0 & Hlong0).
    assert (String.length pre0 = String.length pre) as Hlen.
    { apply Nat.le_antisymm;
        [exact (Hleft0 pre tok rest Heq L)
        | exact (Hleft pre0 tok0 rest0 Heq0 L0)]. }
    rewrite Heq in Heq0.
    destruct (append_same_length pre0 _ pre _ (eq_sym Heq0) Hlen) as [_ Htail].
    assert (String.length tok0 = String.length tok) as Hlen'.
    { apply Nat.le_antisymm;
        [exact (Hlong tok0 rest0 (eq_sym Htail) L0)
        | exact (Hlong0 tok rest Htail L)]. }
    destruct (append_same_length tok0 _ tok _ Htail Hlen') as [-> _].
    congruence.
  - exfalso. apply clean_None_iff in Hy. apply token_has_digit in L.
    rewrite Heq, !any_append, L, orb_true_l, orb_true_r in Hy. discriminate.
Qed.

End LongestMatch.

(** ** Numeric token parsing and height resolution *)

Module Height.
Import Re Py ReFacts CleanFacts FirstMatch LongestMatch.

Lemma or_str_Some (s : string) : or_str (Some s) "" = s.
Proof. now destruct s. Qed.

Lemma clean_Some_truthy value x : _clean value = Some x -> truthy value = true.
Proof. unfold _clean. now destruct value. Qed.

(** A text none of whose parts [float] accepts has no digit. *)
Lemma no_float_no_digit value :
  (forall pre t rest, value = pre ++ t ++ rest -> Py.float t = None) ->
  any is_digit value = false.
Proof.
  intros H. destruct (any is_digit value) eqn:Hany; [|reflexivity].
  destruct (any_digit_split _ Hany) as (pre & c & rest & Heq & Hc).
  specialize (H pre (String c "") rest Heq).
  destruct (float_of_token _ (digit_is_token c Hc)) as [x Hx]. congruence.
Qed.

(** [float] agrees with the binary64 literals of the same decimal
    numbers, also where the number is not representable. *)
Example float_tenth : Py.float "0.1" = Some 0x1.999999999999ap-4%float.
Proof. reflexivity. Qed.

Example float_signed : Py.float "-12.5" = Some (-12.5)%float.
Proof. reflexivity. Qed.

Example float_point_first : Py.float "+.5" = Some 0.5%float.
Proof. reflexivity. Qed.

(** Levels need not give an exact product: 0.1 * 3.0 in binary64. *)
Example levels_tenth :
  _normalize_height None (Some "0.1") = Some 0x1.3333333333334p-2%float.
Proof. reflexivity. Qed.

(** The matcher gives back a point that no digit follows. *)
Example clean_gives_back_point : _clean "12. m" = Some 12%float.
Proof. reflexivity. Qed.

Example clean_skips_text : _clean "about -.5m or 7" = Some (-0.5)%float.
Proof. reflexivity. Qed.

(** [_clean] parses the first number, and is the only function that does. *)
Lemma clean_parses_first_number : parses_first_number _clean.
Proof.
  split.
  - intros value pre tok rest (Heq & L & Hleft & Hlong).
    now apply (clean_leftmost_longest value pre tok rest).
  - intros value H. apply clean_None_iff.
    destruct (any is_digit value) eqn:Hany; [|reflexivity].
    destruct (any_digit_split _ Hany) as (pre & c & rest & Heq & Hc).
    elim (H pre (String c "") rest Heq). now apply digit_is_token.
Qed.

Lemma parses_first_number_unique f :
  parses_first_number f -> forall value, f value = _clean value.
Proof.
  intros [Hsome Hnone] value. destruct (_clean value) as [x|] eqn:Hx.
  - apply clean_Some_longest in Hx
      as (pre & tok & rest & Heq & L & Hx & Hleft & Hlong).
    rewrite <- Hx. apply (Hsome value pre tok rest). now repeat split.
  - apply Hnone. intros pre tok rest -> L.
    apply clean_None_iff in Hx. apply token_has_digit in L.
    rewrite !any_append, L, orb_true_l, orb_true_r in Hx. discriminate.
Qed.

(** C8. [_clean] converts with [float] the first signed decimal number of
    the text: the word of the pattern that starts leftmost in the text and,
    of the words that start there, the longest.  The text decides the
    result: whichever word is leftmost and longest is the one converted.  A
    number followed by a unit or other text is read as that number ("12.5 m"
    gives 12.5, and so does "ca. 12.5 m"), and the answer is [None] exactly
    when no part of the text is such a number, in particular when [float]
    accepts no part of it ("abc" gives [None]).  No other function parses
    the first number of every text. *)
Theorem C8_clean_first_number :
  (forall sg ip fp rest,
      sg = "" \/ sg = "+" \/ sg = "-" ->
      all is_digit ip = true -> all is_digit fp = true -> fp <> "" ->
      stops is_digit rest = true ->
      _clean (sg ++ ip ++ "." ++ fp ++ rest)
      = Py.float (sg ++ ip ++ "." ++ fp)) /\
  (forall sg ip rest,
      sg = "" \/ sg = "+" \/ sg = "-" ->
      all is_digit ip = true -> ip <> "" -> ends_number rest = true ->
      _clean (sg ++ ip ++ rest) = Py.float (sg ++ ip)) /\
  (forall value x,
      _clean value = Some x ->
      exists pre tok rest,
        value = pre ++ tok ++ rest /\ lang number_re tok /\
        Py.float tok = Some x /\
        (forall pre' tok' rest',
            value = pre' ++ tok' ++ rest' -> lang number_re tok' ->
            (String.length pre <= String.length pre')%nat) /\
        (forall tok' rest',
            tok ++ rest = tok' ++ rest' -> lang number_re tok' ->
            (String.length tok' <= String.length tok)%nat)) /\
  (forall value pre tok rest,
      value = pre ++ tok ++ rest -> lang number_re tok ->
      (forall pre' tok' rest',
          value = pre' ++ tok' ++ rest' -> lang number_re tok' ->
          (String.length pre <= String.length pre')%nat) ->
      (forall tok' rest',
          tok ++ rest = tok' ++ rest' -> lang number_re tok' ->
          (String.length tok' <= String.length tok)%nat) ->
      _clean value = Py.float tok) /\
  (forall value,
      _clean value = None <->
      forall pre tok rest, value = pre ++ tok ++ rest -> ~ lang number_re tok) /\
  (forall value,
      (forall pre t rest, value = pre ++ t ++ rest -> Py.float t = None) ->
      _clean value = None) /\
  (parses_first_number _clean /\
   forall f, parses_first_number f -> forall value, f value = _clean value) /\
  _clean "12.5 m" = Some 12.5%float /\
  _clean "ca. 12.5 m" = Some 12.5%float /\
  _clean "abc" = None.
Proof.
  split; [exact clean_point_then_text |].
  split; [exact clean_digits_then_text |].
  split; [exact clean_Some_longest |].
  split; [exact clean_leftmost_longest |].
  split; [|split; [|split; [|repeat split; reflexivity]]].
  - intros value. rewrite clean_None_iff. split.
    + intros Hany pre tok rest -> L. apply token_has_digit in L.
      rewrite !any_append, L, orb_true_l, orb_true_r in Hany. discriminate.
    + intros H. destruct (any is_digit value) eqn:Hany; [|reflexivity].
      destruct (any_digit_split _ Hany) as (pre & c & rest & Heq & Hc).
      elim (H pre (String c "") rest Heq). now apply digit_is_token.
  - intros value H. apply clean_None_iff. now apply no_float_no_digit.
  - split; [exact clean_parses_first_number | exact parses_first_number_unique].
Qed.

(** The general statements of C8 at the inputs of the specification, and
    at a number with text on both sides. *)
Lemma C8_clean_first_number_witness :
  _clean ("" ++ "12" ++ "." ++ "5" ++ " m") = Py.float ("" ++ "12" ++ "." ++ "5")
  /\ _clean ("" ++ "9" ++ " floors") = Py.float ("" ++ "9")
  /\ _clean "ca. 12.5 m" = Py.float "12.5"
  /\ _clean "abc" = None.
Proof.
  split; [|split; [|split]].
  - apply (proj1 C8_clean_first_number "" "12" "5" " m");
      [now left | reflexivity | reflexivity | discriminate | reflexivity].
  - apply (proj1 (proj2 C8_clean_first_number) "" "9" " floors");
      [now left | reflexivity | discriminate | reflexivity].
  - destruct (search_leftmost_longest "ca. 12.5 m" "ca. " "12.5" " m" eq_refl)
      as (Heq & L & Hleft & Hlong).
    exact (proj1 (proj2 (proj2 (proj2 C8_clean_first_number)))
             "ca. 12.5 m" "ca. " "12.5" " m" Heq L Hleft Hlong).
  - apply (proj1 (proj2 (proj2 (proj2 (proj2 (proj2 C8_clean_first_number)))))).
    intros pre t rest Heq. destruct (Py.float t) as [x|] eqn:Hx; [|reflexivity].
    apply float_Some_has_digit in Hx.
    assert (any is_digit "abc" = true) as Habc
      by (rewrite Heq, !any_append, Hx, orb_true_l; apply orb_true_r).
    discriminate Habc.
Defined.

(** C1, as the code has it.  When the "height" tag is absent or empty, the
    "building:height" tag is read in its place, and a number parsed from it
    is the resolved height.  When the "height" tag is present and
    non-empty, "building:height" is not consulted at all: the height is
    resolved from "height" and "building:levels" alone, so an unparseable
    "height" falls through to "building:levels" (times 3.0), else to
    absent. *)
Theorem C1_height_or_building_height (tags : gmap string string) :
  (truthy_opt (tags !! "height") = false ->
   forall b x,
     tags !! "building:height" = Some b -> _clean b = Some x ->
     resolve_height tags = Some x) /\
  (forall h,
      tags !! "height" = Some h -> truthy h = true ->
      resolve_height tags
      = _normalize_height (Some h) (tags !! "building:levels")) /\
  (forall h,
      tags !! "height" = Some h -> truthy h = true -> _clean h = None ->
      resolve_height tags
      = match _clean (or_str (tags !! "building:levels") "") with
        | Some n => Some (n * 3)%float
        | None => None
        end).
Proof.
  unfold resolve_height, or_opt. split; [|split].
  - intros Hh b x Hb Hx. rewrite Hh, Hb. unfold _normalize_height.
    now rewrite or_str_Some, Hx.
  - intros h Hh Ht. rewrite Hh. simpl. now rewrite Ht.
  - intros h Hh Ht Hc. rewrite Hh. simpl. rewrite Ht.
    unfold _normalize_height. now rewrite or_str_Some, Hc.
Qed.

Lemma C1_height_or_building_height_witness :
  resolve_height {[ "building:height" := "12" ]} = Some 12%float /\
  resolve_height
    (<[ "height" := "abc" ]> (<[ "building:height" := "12" ]>
       {[ "building:levels" := "2" ]}))
  = Some 6%float.
Proof.
  split.
  - apply (proj1 (C1_height_or_building_height
                    {[ "building:height" := "12" ]})) with (b := "12");
      reflexivity.
  - rewrite (proj2 (proj2 (C1_height_or_building_height
                    (<[ "height" := "abc" ]> (<[ "building:height" := "12" ]>
                       {[ "building:levels" := "2" ]})))) "abc")
      by reflexivity.
    reflexivity.
Defined.

(** C1, in the wording of the specification (an unparseable "height" falls
    through to "building:height"), does not hold: with "height" = "abc" and
    "building:height" = "12" the resolved height is absent, not 12. *)
Lemma C1_unparseable_height_counterexample :
  let tags : gmap string string :=
    <[ "height" := "abc" ]> {[ "building:height" := "12" ]} in
  tags !! "height" = Some "abc" /\ truthy "abc" = true /\
  _clean "abc" = None /\
  tags !! "building:height" = Some "12" /\ _clean "12" = Some 12%float /\
  resolve_height tags = None.
Proof. repeat split; reflexivity. Qed.

(** C3. With parseable "height" and "building:levels" tags the resolved
    height is the number of the "height" tag; with "building:levels" alone
    (no "height", no "building:height") it is the number of levels times
    3.0, so "5" levels resolve to 15.0. *)
Theorem C3_height_wins_levels_times_three (tags : gmap string string) :
  (forall h l x n,
      tags !! "height" = Some h -> tags !! "building:levels" = Some l ->
      _clean h = Some x -> _clean l = Some n ->
      resolve_height tags = Some x) /\
  (forall l n,
      tags !! "height" = None -> tags !! "building:height" = None ->
      tags !! "building:levels" = Some l -> _clean l = Some n ->
      resolve_height tags = Some (n * 3)%float) /\
  resolve_height {[ "building:levels" := "5" ]} = Some 15%float.
Proof.
  split; [|split; [|reflexivity]].
  - intros h l x n Hh Hl Hx Hn. unfold resolve_height, or_opt.
    rewrite Hh. simpl. rewrite (clean_Some_truthy h x Hx).
    unfold _normalize_height. now rewrite or_str_Some, Hx.
  - intros l n Hh Hb Hl Hn. unfold resolve_height, or_opt.
    rewrite Hh, Hb, Hl. simpl. unfold _normalize_height. simpl or_str at 1.
    change (_clean "") with (@None PrimFloat.float). cbv iota.
    now rewrite or_str_Some, Hn.
Qed.

Lemma C3_height_wins_levels_times_three_witness :
  resolve_height (<[ "height" := "9" ]> {[ "building:levels" := "5" ]})
  = Some 9%float /\
  resolve_height {[ "building:levels" := "5" ]} = Some (5 * 3)%float.
Proof.
  split.
  - apply (proj1 (C3_height_wins_levels_times_three
                    (<[ "height" := "9" ]> {[ "building:levels" := "5" ]}))
                 "9" "5" 9%float 5%float); reflexivity.
  - apply (proj1 (proj2 (C3_height_wins_levels_times_three
                           {[ "building:levels" := "5" ]})) "5" 5%float);
      reflexivity.
Defined.

End Height.

(** ** Address formatting *)

Module Address.
Import Py.

Lemma address_fold tags keys acc :
  fold_left (address_step tags) keys acc
  = (acc ++ omap (part tags) keys)%list.
Proof.
  revert acc. induction keys as [|key keys IH]; intros acc; simpl.
  - now rewrite app_nil_r.
  - rewrite IH. unfold address_step, part.
    destruct (tags !! key) as [value|]; [|reflexivity].
    destruct (truthy value); [|reflexivity].
    now rewrite <- app_assoc.
Qed.

Lemma parts_truthy tags keys :
  Forall (fun p => truthy p = true) (omap (part tags) keys).
Proof.
  induction keys as [|key keys IH]; simpl; [constructor |].
  unfold part at 1. destruct (tags !! key) as [value|]; [|assumption].
  destruct (truthy value) eqn:Hv; [|assumption]. now constructor.
Qed.

Lemma parts_absent tags keys :
  (forall key, key ∈ keys -> tags !! key = None) ->
  omap (part tags) keys = [].
Proof.
  induction keys as [|key keys IH]; intros Hnone; simpl; [reflexivity |].
  unfold part at 1. rewrite (Hnone key) by now left.
  apply IH. intros k Hk. apply Hnone. now right.
Qed.

Lemma join_nonempty sep p rest : truthy p = true -> join sep (p :: rest) <> "".
Proof. destruct p; [discriminate |]. now destruct rest. Qed.

(** C5. The formatted address is the join by ", " of the values of the
    eight address tags, in their fixed order, leaving out the tags that are
    absent or empty; it is absent when none of the tags is present, and is
    never the empty string.  Tags "12" and "Main St" for house number and
    street format to "12, Main St". *)
Theorem C5_format_address (tags : gmap string string) :
  _format_address tags
  = match address_parts_spec tags with
    | [] => None
    | parts => Some (join ", " parts)
    end /\
  ((forall key, key ∈ _ADDRESS_FIELDS -> tags !! key = None) ->
   _format_address tags = None) /\
  _format_address tags <> Some "" /\
  _format_address
    (<[ "addr:housenumber" := "12" ]> {[ "addr:street" := "Main St" ]})
  = Some "12, Main St" /\
  _format_address ∅ = None.
Proof.
  assert (_format_address tags
          = match address_parts_spec tags with
            | [] => None
            | parts => Some (join ", " parts)
            end) as Hspec.
  { unfold _format_address. rewrite address_fold, app_nil_l.
    change (omap (part tags) _ADDRESS_FIELDS) with (address_parts_spec tags).
    cbv zeta. now destruct (address_parts_spec tags). }
  split; [exact Hspec |]. split; [|split; [|split; reflexivity]].
  - intros Hnone. rewrite Hspec.
    change (address_parts_spec tags) with (omap (part tags) _ADDRESS_FIELDS).
    now rewrite parts_absent.
  - rewrite Hspec.
    pose proof (parts_truthy tags _ADDRESS_FIELDS) as Hall.
    change (omap (part tags) _ADDRESS_FIELDS)
      with (address_parts_spec tags) in Hall.
    destruct (address_parts_spec tags) as [|p rest]; [discriminate |].
    inversion Hall as [|? ? Hp _]; subst.
    intros [= H]. now apply (join_nonempty ", " p rest).
Qed.

Lemma C5_format_address_witness :
  _format_address {[ "building" := "yes" ]} = None.
Proof.
  apply (proj1 (proj2 (C5_format_address {[ "building" := "yes" ]}))).
  intros key Hkey. unfold _ADDRESS_FIELDS in Hkey.
  repeat (apply elem_of_cons in Hkey as [-> | Hkey]; [reflexivity |]).
  now apply elem_of_nil in Hkey.
Defined.

End Address.

(** ** Ring closing *)

Module Ring.

Lemma obj_eq_refl x : obj_eq x x = true.
Proof. unfold obj_eq. now rewrite Nat.eqb_refl. Qed.

Lemma coord_eq_refl c : coord_eq c c = true.
Proof. unfold coord_eq. now rewrite !obj_eq_refl. Qed.

Lemma ensure_closed_ring_closed nodes : closed (_ensure_closed_ring nodes) = true.
Proof.
  destruct nodes as [|first tl]; [reflexivity |].
  unfold _ensure_closed_ring.
  destruct (coord_eq first (List.last (first :: tl) first)) eqn:Heq;
    simpl negb; cbv iota.
  - exact Heq.
  - change (coord_eq first (List.last ((first :: tl) ++ [first])%list first)
            = true).
    rewrite last_last. apply coord_eq_refl.
Qed.

Lemma closed_fixed nodes : closed nodes = true -> _ensure_closed_ring nodes = nodes.
Proof.
  destruct nodes as [|first tl]; [reflexivity |].
  unfold closed, _ensure_closed_ring. now intros ->.
Qed.

(** C7. Closing a ring twice is the same as closing it once. *)
Theorem C7_ensure_closed_ring_idempotent (nodes : list coordinate) :
  _ensure_closed_ring (_ensure_closed_ring nodes) = _ensure_closed_ring nodes.
Proof. apply closed_fixed, ensure_closed_ring_closed. Qed.

Lemma distinct_length l : (length (distinct l) <= length l)%nat.
Proof.
  induction l as [|c l IH]; simpl; [lia |].
  destruct (existsb (coord_eq c) l); simpl; lia.
Qed.

(** A closed ring of fewer than four coordinates has fewer than three
    distinct vertices. *)
Lemma short_ring_few_vertices ring :
  closed ring = true -> (length ring < 4)%nat ->
  (length (distinct ring) < 3)%nat.
Proof.
  intros Hc Hlen.
  destruct ring as [|a [|b [|c [|d ring]]]]; simpl in Hlen; try lia;
    try (pose proof (distinct_length [a]); simpl in *; lia);
    try (pose proof (distinct_length [a; b]); simpl in *; lia).
  - simpl; lia.
  - simpl in Hc. cbn [distinct existsb]. rewrite Hc, orb_true_r.
    pose proof (distinct_length [b; c]). simpl in *. lia.
Qed.

End Ring.

(** ** Insertion-ordered dictionaries *)

Module ODictFacts.
Import ODict.

Section Facts.
Context {V : Type}.
Implicit Types (d : list (Z * V)) (k : Z) (v : V).

Lemma get_set_eq k v d : get k (set k v d) = Some v.
Proof.
  induction d as [|[k' v'] d IH]; simpl.
  - now rewrite Z.eqb_refl.
  - destruct (k' =? k)%Z eqn:Hk; simpl; now rewrite Hk.
Qed.

Lemma get_set_ne k k' v d : k <> k' -> get k' (set k v d) = get k' d.
Proof.
  intros Hne. induction d as [|[k0 v0] d IH]; simpl.
  - destruct (Z.eqb_spec k k'); [contradiction | reflexivity].
  - destruct (Z.eqb_spec k0 k) as [-> | Hk0]; simpl.
    + destruct (Z.eqb_spec k k'); [contradiction | reflexivity].
    + now rewrite IH.
Qed.

Lemma keys_set k v d :
  map fst (set k v d) = map fst d \/
  ((k ∉ map fst d) /\ map fst (set k v d) = (map fst d ++ [k])%list).
Proof.
  induction d as [|[k' v'] d IH]; simpl.
  - right. split; [apply not_elem_of_nil | reflexivity].
  - destruct (Z.eqb_spec k' k) as [-> | Hk]; simpl; [now left |].
    destruct IH as [-> | [Hnot ->]]; [now left |].
    right. split; [|reflexivity].
    rewrite not_elem_of_cons. split; [congruence | assumption].
Qed.

(** A key occurs once: assignment never duplicates it. *)
Lemma set_NoDup k v d : NoDup (map fst d) -> NoDup (map fst (set k v d)).
Proof.
  intros Hd. destruct (keys_set k v d) as [-> | [Hnot ->]]; [assumption |].
  apply NoDup_app. split; [assumption |]. split.
  - intros x Hx Hk. apply list_elem_of_singleton in Hk. now subst.
  - apply NoDup_singleton.
Qed.

Lemma elem_of_get k v d :
  NoDup (map fst d) -> (k, v) ∈ d -> get k d = Some v.
Proof.
  induction d as [|[k' v'] d IH]; simpl; intros Hd Hin.
  - now apply elem_of_nil in Hin.
  - apply NoDup_cons in Hd as [Hnot Hd].
    apply elem_of_cons in Hin as [[= <- <-] | Hin].
    + now rewrite Z.eqb_refl.
    + destruct (Z.eqb_spec k' k) as [-> | _]; [|now apply IH].
      elim Hnot. apply list_elem_of_fmap. now exists (k, v).
Qed.

End Facts.

End ODictFacts.

(** ** Indexing the elements *)

Module Indexing.
Import ODictFacts.

Lemma index_elements_snoc els el :
  index_elements (els ++ [el]) = index_element (index_elements els) el.
Proof. unfold index_elements. now rewrite fold_left_app. Qed.

Lemma last_node_snoc id els el :
  last_node id (els ++ [el])
  = match el with
    | Node i la lo =>
        if (i =? id)%Z then Some (Coord la lo) else last_node id els
    | _ => last_node id els
    end.
Proof.
  induction els as [|e els IH]; simpl.
  - destruct el as [i la lo| |]; reflexivity.
  - rewrite IH. destruct el as [i la lo| |];
      try (now destruct (last_node id els)).
    destruct (i =? id)%Z; [reflexivity | now destruct (last_node id els)].
Qed.

Lemma last_building_snoc id els el :
  last_building id (els ++ [el])
  = match el with
    | Way w =>
        if is_building w && (w_id w =? id)%Z then Some w
        else last_building id els
    | _ => last_building id els
    end.
Proof.
  induction els as [|e els IH]; simpl.
  - destruct el as [| w |]; reflexivity.
  - rewrite IH. destruct el as [| w |];
      try (now destruct (last_building id els)).
    destruct (is_building w && (w_id w =? id)%Z);
      [reflexivity | now destruct (last_building id els)].
Qed.

(** The node index holds, for each identifier, the last node element. *)
Lemma nodes_last_node els id :
  fst (index_elements els) !! id = last_node id els.
Proof.
  induction els as [|el els IH] using rev_ind; [reflexivity |].
  rewrite index_elements_snoc, last_node_snoc.
  destruct el as [i la lo | w |]; simpl; try assumption.
  - destruct (Z.eqb_spec i id) as [-> | Hne].
    + apply lookup_insert_eq.
    + now rewrite lookup_insert_ne.
  - now destruct (is_building w).
Qed.

(** The dictionary of buildings holds, for each identifier, the last
    building-tagged way element. *)
Lemma buildings_last_building els id :
  ODict.get id (snd (index_elements els)) = last_building id els.
Proof.
  induction els as [|el els IH] using rev_ind; [reflexivity |].
  rewrite index_elements_snoc, last_building_snoc.
  destruct el as [i la lo | w |]; simpl; try assumption.
  destruct (is_building w); simpl; [|assumption].
  destruct (Z.eqb_spec (w_id w) id) as [<- | Hne].
  - apply get_set_eq.
  - now rewrite get_set_ne.
Qed.

Lemma buildings_NoDup els : NoDup (map fst (snd (index_elements els))).
Proof.
  induction els as [|el els IH] using rev_ind; [constructor |].
  rewrite index_elements_snoc.
  destruct el as [i la lo | w |]; simpl; try assumption.
  destruct (is_building w); simpl; [|assumption]. now apply set_NoDup.
Qed.

End Indexing.

(** ** Assembling the records *)

Module Assembly.
Import Ring.

Lemma resolve_fold nodes refs acc :
  fold_left (resolve_step nodes) refs acc
  = (acc ++ omap (fun id => nodes !! id) refs)%list.
Proof.
  revert acc. induction refs as [|id refs IH]; intros acc; simpl.
  - now rewrite app_nil_r.
  - rewrite IH. unfold resolve_step.
    destruct (nodes !! id) as [[la lo]|]; [|reflexivity].
    now rewrite <- app_assoc.
Qed.

(** The coordinates of a way are those of its node references that the
    index knows, in order. *)
Lemma resolve_coordinates_omap nodes refs :
  resolve_coordinates nodes refs = omap (fun id => nodes !! id) refs.
Proof. unfold resolve_coordinates. now rewrite resolve_fold. Qed.

Lemma assemble_Some nodes id w info :
  assemble nodes id w = Some info ->
  way_id info = id /\
  outline info
  = _ensure_closed_ring (resolve_coordinates nodes (default [] (w_nodes w))) /\
  (4 <= length (outline info))%nat /\
  height_m info = resolve_height (tags_of w) /\
  address info = _format_address (tags_of w).
Proof.
  unfold assemble.
  destruct (Nat.ltb_spec
              (length (_ensure_closed_ring
                         (resolve_coordinates nodes (default [] (w_nodes w)))))
              4) as [Hlt | Hge]; [discriminate |].
  intros [= <-]. simpl. repeat split. exact Hge.
Qed.

Lemma assemble_None nodes id w :
  assemble nodes id w = None <->
  (length (_ensure_closed_ring
             (resolve_coordinates nodes (default [] (w_nodes w)))) < 4)%nat.
Proof.
  unfold assemble.
  destruct (Nat.ltb_spec
              (length (_ensure_closed_ring
                         (resolve_coordinates nodes (default [] (w_nodes w)))))
              4) as [Hlt | Hge].
  - split; [now intros _ | reflexivity].
  - split; [discriminate | lia].
Qed.

(** Every outline is a closed ring of at least four coordinates. *)
Lemma outline_closed nodes id w info :
  assemble nodes id w = Some info ->
  closed (outline info) = true /\ (4 <= length (outline info))%nat.
Proof.
  intros H. apply assemble_Some in H as (_ & -> & Hlen & _).
  split; [apply ensure_closed_ring_closed | exact Hlen].
Qed.

(** The second loop, as a whole: the records, the file names and the
    files are those of the items that assemble, in the order of the
    dictionary. *)
Lemma process_fold nodes output_czml bs st :
  let infos := omap (assemble_item nodes) bs in
  let st' := fold_left (process_way nodes output_czml) bs st in
  results st' = (results st ++ infos)%list /\
  czml_files st'
  = (czml_files st ++
      if output_czml then map (fun r => czml_name (way_id r)) infos else [])%list /\
  written st'
  = (written st ++ if output_czml then map czml_entry infos else [])%list.
Proof.
  revert st. induction bs as [|item bs IH]; intros st; cbv zeta.
  - simpl. destruct output_czml; now rewrite !app_nil_r.
  - destruct (IH (process_way nodes output_czml st item)) as (Hr & Hf & Hw).
    rewrite omap_cons. simpl fold_left. rewrite Hr, Hf, Hw.
    unfold process_way, assemble_item.
    destruct (assemble nodes item.1 item.2) as [info|]; [|easy].
    unfold czml_entry.
    destruct output_czml; simpl; rewrite <- ?app_assoc; easy.
Qed.

Lemma process_ways_results nodes output_czml bs :
  results (process_ways nodes output_czml bs) = omap (assemble_item nodes) bs.
Proof. exact (proj1 (process_fold nodes output_czml bs _)). Qed.

Lemma process_ways_written nodes bs :
  written (process_ways nodes true bs)
  = map czml_entry (results (process_ways nodes true bs)).
Proof.
  rewrite process_ways_results.
  exact (proj2 (proj2 (process_fold nodes true bs _))).
Qed.

(** What [fetch_osm_buildings] returns on a payload with elements. *)
Lemma fetch_inr els output_czml :
  exists files,
    fetch_osm_buildings (Some (MkPayload (Some els))) output_czml
    = inr ({| count := length (omap (assemble_item (fst (index_elements els)))
                                 (snd (index_elements els)));
              buildings := omap (assemble_item (fst (index_elements els)))
                             (snd (index_elements els));
              czml_files_out :=
                if output_czml
                then Some (map (fun r => czml_name (way_id r))
                             (omap (assemble_item (fst (index_elements els)))
                                (snd (index_elements els))))
                else None |},
           files).
Proof.
  unfold fetch_osm_buildings. cbn [elements]. cbv beta iota.
  destruct (index_elements els) as [nodes blds]. cbn [fst snd]. cbv zeta.
  destruct (process_fold nodes output_czml blds
              {| results := []; czml_files := []; written := [] |})
    as (Hr & Hf & _).
  fold (process_ways nodes output_czml blds) in Hr, Hf.
  simpl in Hr, Hf. rewrite Hr, Hf.
  destruct output_czml; eauto.
Qed.

Lemma elem_of_records nodes (bs : list (Z * way)) info :
  info ∈ omap (assemble_item nodes) bs ->
  exists w, (way_id info, w) ∈ bs /\ assemble nodes (way_id info) w = Some info.
Proof.
  intros Hin. apply list_elem_of_omap in Hin as ([id w] & Hin & Ha).
  unfold assemble_item in Ha. simpl in Ha.
  destruct (assemble_Some _ _ _ _ Ha) as (<- & _). now exists w.
Qed.

Lemma records_NoDup nodes (bs : list (Z * way)) :
  NoDup (map fst bs) -> NoDup (map way_id (omap (assemble_item nodes) bs)).
Proof.
  induction bs as [|[id w] bs IH]; intros Hd; [constructor |].
  simpl in Hd. apply NoDup_cons in Hd as [Hnot Hd].
  rewrite omap_cons. unfold assemble_item at 1. simpl.
  destruct (assemble nodes id w) as [info|] eqn:Ha; [|now apply IH].
  simpl. apply NoDup_cons. split; [|now apply IH].
  intros Hin. apply list_elem_of_fmap in Hin as (r & Hid & Hr).
  apply elem_of_records in Hr as (w' & Hin & _).
  apply assemble_Some in Ha as (Hway & _). rewrite Hway in Hid.
  elim Hnot. apply list_elem_of_fmap. exists (way_id r, w').
  split; [assumption | assumption].
Qed.

End Assembly.

(** ** The pipeline *)

Module Pipeline.
Import Ring ODictFacts Indexing Assembly.

Lemma ensure_closed_ring_length_le nodes :
  (length (_ensure_closed_ring nodes) <= S (length nodes))%nat.
Proof.
  destruct nodes as [|first tl]; [simpl; lia |].
  unfold _ensure_closed_ring.
  destruct (negb _); [rewrite length_app |]; simpl; lia.
Qed.

Lemma last_node_split pre id la lo post :
  (forall la' lo', Node id la' lo' ∉ post) ->
  last_node id (pre ++ Node id la lo :: post) = Some (Coord la lo).
Proof.
  intros Hpost.
  assert (last_node id post = None) as Hnone.
  { induction post as [|el post IH]; [reflexivity |]. simpl.
    rewrite IH by (intros la' lo' Hin; apply (Hpost la' lo'); now right).
    destruct el as [i la' lo' | |]; try reflexivity.
    destruct (Z.eqb_spec i id) as [-> | _]; [|reflexivity].
    elim (Hpost la' lo'). now left. }
  induction pre as [|el pre IH]; simpl.
  - now rewrite Hnone, Z.eqb_refl.
  - now rewrite IH.
Qed.

Lemma last_building_split pre w post :
  is_building w = true ->
  (forall w', Way w' ∈ post -> is_building w' = true -> w_id w' <> w_id w) ->
  last_building (w_id w) (pre ++ Way w :: post) = Some w.
Proof.
  intros Hb Hpost.
  assert (last_building (w_id w) post = None) as Hnone.
  { induction post as [|el post IH]; [reflexivity |]. simpl.
    rewrite IH by (intros w' Hin; apply Hpost; now right).
    destruct el as [| w' |]; try reflexivity.
    destruct (is_building w') eqn:Hb'; [|reflexivity].
    destruct (Z.eqb_spec (w_id w') (w_id w)) as [Heq | _]; [|reflexivity].
    elim (Hpost w'); [now left | assumption | assumption]. }
  induction pre as [|el pre IH]; simpl.
  - now rewrite Hnone, Hb, Z.eqb_refl.
  - now rewrite IH.
Qed.

(** C10. Of several node elements with one identifier the node index
    keeps the last, and of several building-tagged way elements with one
    identifier the dictionary of buildings keeps the last; the run succeeds,
    no two records of the result have the same way identifier, and each
    record is assembled from the last building-tagged way element with its
    identifier. *)
Theorem C10_last_element_wins (els : list element) (output_czml : bool) :
  (forall id, fst (index_elements els) !! id = last_node id els) /\
  (forall id, ODict.get id (snd (index_elements els)) = last_building id els) /\
  (forall pre id la lo post,
      els = (pre ++ Node id la lo :: post)%list ->
      (forall la' lo', Node id la' lo' ∉ post) ->
      fst (index_elements els) !! id = Some (Coord la lo)) /\
  (forall pre w post,
      els = (pre ++ Way w :: post)%list -> is_building w = true ->
      (forall w', Way w' ∈ post -> is_building w' = true ->
                  w_id w' <> w_id w) ->
      ODict.get (w_id w) (snd (index_elements els)) = Some w) /\
  match fetch_osm_buildings (Some (MkPayload (Some els))) output_czml with
  | inl _ => False
  | inr (res, _) =>
      NoDup (map way_id (buildings res)) /\
      Forall (fun r =>
                exists w,
                  last_building (way_id r) els = Some w /\
                  assemble (fst (index_elements els)) (way_id r) w = Some r)
             (buildings res)
  end.
Proof.
  split; [apply nodes_last_node |]. split; [apply buildings_last_building |].
  split; [|split].
  - intros pre id la lo post -> Hpost.
    rewrite nodes_last_node. now apply last_node_split.
  - intros pre w post -> Hb Hpost.
    rewrite buildings_last_building. now apply last_building_split.
  - destruct (fetch_inr els output_czml) as [files ->]. simpl buildings.
    split; [apply records_NoDup, buildings_NoDup |].
    apply Forall_forall. intros r Hr.
    apply elem_of_records in Hr as (w & Hin & Ha).
    exists w. split; [|exact Ha].
    rewrite <- buildings_last_building.
    apply elem_of_get; [apply buildings_NoDup | exact Hin].
Qed.

(** Two way elements with one identifier: one record, from the second. *)
Lemma C10_last_element_wins_witness :
  let a := PyFloat 0 0 in
  let b := PyFloat 1 1 in
  let yes : gmap string string := {[ "building" := "yes" ]} in
  let w1 := MkWay 7 (Some [1; 2; 3; 4]) (Some yes) in
  let w2 := MkWay 7 (Some [4; 3; 2; 1]) (Some yes) in
  let els := [Node 1 a a; Node 2 a b; Node 3 b b; Node 4 b a; Node 4 b a;
              Way w1; Way w2] in
  fst (index_elements els) !! 4 = Some (Coord b a) /\
  ODict.get 7 (snd (index_elements els)) = Some w2.
Proof.
  cbv zeta. split.
  - apply (proj1 (proj2 (proj2 (C10_last_element_wins _ false)))
             [Node 1 (PyFloat 0 0) (PyFloat 0 0);
              Node 2 (PyFloat 0 0) (PyFloat 1 1);
              Node 3 (PyFloat 1 1) (PyFloat 1 1);
              Node 4 (PyFloat 1 1) (PyFloat 0 0)]
             4 (PyFloat 1 1) (PyFloat 0 0)
             [Way (MkWay 7 (Some [1; 2; 3; 4])
                     (Some {[ "building" := "yes" ]}));
              Way (MkWay 7 (Some [4; 3; 2; 1])
                     (Some {[ "building" := "yes" ]}))]);
      [reflexivity |].
    intros la' lo' Hin.
    repeat (apply elem_of_cons in Hin as [Hin | Hin]; [discriminate Hin |]).
    now apply elem_of_nil in Hin.
  - apply (proj1 (proj2 (proj2 (proj2 (C10_last_element_wins _ false))))
             [Node 1 (PyFloat 0 0) (PyFloat 0 0);
              Node 2 (PyFloat 0 0) (PyFloat 1 1);
              Node 3 (PyFloat 1 1) (PyFloat 1 1);
              Node 4 (PyFloat 1 1) (PyFloat 0 0);
              Node 4 (PyFloat 1 1) (PyFloat 0 0);
              Way (MkWay 7 (Some [1; 2; 3; 4])
                     (Some {[ "building" := "yes" ]}))]
             (MkWay 7 (Some [4; 3; 2; 1]) (Some {[ "building" := "yes" ]}))
             []);
      [reflexivity | reflexivity |].
    intros w' Hin. now apply elem_of_nil in Hin.
Defined.

(** C4. Node identifiers that the index does not know contribute no
    coordinate; the run on a payload with elements ends without error and
    returns the records of the ways that assemble, in order; and a
    building-tagged way whose closed ring has fewer than four coordinates
    (then it has fewer than three distinct vertices), in particular a way
    with fewer than three resolvable coordinates, has no record in the
    result. *)
Theorem C4_missing_nodes_and_short_rings
    (els : list element) (output_czml : bool) :
  (forall nodes refs,
      resolve_coordinates nodes refs = omap (fun id => nodes !! id) refs) /\
  (forall nodes refs1 id refs2,
      nodes !! id = None ->
      resolve_coordinates nodes (refs1 ++ id :: refs2)%list
      = resolve_coordinates nodes (refs1 ++ refs2)%list) /\
  exists res files,
    fetch_osm_buildings (Some (MkPayload (Some els))) output_czml
    = inr (res, files) /\
    buildings res
    = omap (assemble_item (fst (index_elements els)))
           (snd (index_elements els)) /\
    forall id w,
      ODict.get id (snd (index_elements els)) = Some w ->
      forall coordinates,
        coordinates
        = resolve_coordinates (fst (index_elements els))
                              (default [] (w_nodes w)) ->
        ((length (_ensure_closed_ring coordinates) < 4)%nat ->
         (length (distinct (_ensure_closed_ring coordinates)) < 3)%nat /\
         forall r, r ∈ buildings res -> way_id r <> id) /\
        ((length coordinates < 3)%nat ->
         forall r, r ∈ buildings res -> way_id r <> id).
Proof.
  split; [exact resolve_coordinates_omap |]. split.
  - intros nodes refs1 id refs2 Hnone.
    rewrite !resolve_coordinates_omap, !omap_app, omap_cons. now rewrite Hnone.
  - destruct (fetch_inr els output_czml) as [files Hfetch].
    eexists _, files. split; [exact Hfetch |]. simpl buildings.
    split; [reflexivity |].
    intros id w Hget coordinates ->.
    set (coordinates := resolve_coordinates _ _).
    assert ((length (_ensure_closed_ring coordinates) < 4)%nat ->
            forall r,
              r ∈ omap (assemble_item (fst (index_elements els)))
                       (snd (index_elements els)) ->
              way_id r <> id) as Hshort.
    { intros Hlen r Hr Hid.
      apply elem_of_records in Hr as (w' & Hin & Ha).
      rewrite Hid in Hin, Ha.
      apply (elem_of_get _ _ _ (buildings_NoDup els)) in Hin.
      assert (w' = w) as -> by congruence.
      apply (proj2 (assemble_None (fst (index_elements els)) id w)) in Hlen.
      congruence. }
    split.
    + intros Hlen. split; [|now apply Hshort].
      apply short_ring_few_vertices;
        [apply ensure_closed_ring_closed | exact Hlen].
    + intros Hlen. apply Hshort.
      pose proof (ensure_closed_ring_length_le coordinates). lia.
Qed.

(** A way of three node references, one of them unknown: its two
    coordinates close to a ring of three, and it has no record. *)
Lemma C4_missing_nodes_and_short_rings_witness :
  let a := PyFloat 0 0 in
  let b := PyFloat 1 1 in
  let nodes : gmap Z coordinate := <[ 1 := Coord a a ]> {[ 2 := Coord a b ]} in
  resolve_coordinates nodes ([1] ++ 9 :: [2]) = resolve_coordinates nodes [1; 2].
Proof.
  cbv zeta.
  apply (proj1 (proj2 (C4_missing_nodes_and_short_rings [] false))
           (<[ 1 := Coord (PyFloat 0 0) (PyFloat 0 0) ]>
              {[ 2 := Coord (PyFloat 0 0) (PyFloat 1 1) ]})
           [1] 9 [2]).
  reflexivity.
Defined.

End Pipeline.

(** ** Scene packets *)

Module Czml.
Import Assembly ODictFacts Indexing.

Lemma cartographic_fold coordinates acc :
  fold_left cartographic_step coordinates acc
  = (acc ++ positions_spec coordinates)%list.
Proof.
  revert acc. induction coordinates as [|c cs IH]; intros acc; simpl.
  - now rewrite app_nil_r.
  - rewrite IH. unfold cartographic_step. now rewrite <- app_assoc.
Qed.

Lemma positions_same c1 c2 :
  Forall2 same_position c1 c2 -> positions_spec c1 = positions_spec c2.
Proof.
  induction 1 as [|a b l1 l2 [Hlat Hlng] _ IH]; [reflexivity |].
  simpl. now rewrite Hlat, Hlng, IH.
Qed.

(** C6. The geometry packet holds, under "polygon", the positions as one
    [longitude, latitude, 0.0] triple per vertex of the outline,
    perPositionHeight false, height 0.0, and as extrudedHeight the height
    of the record, or 10.0 when the record has none.  In a run with CZML
    output the file of each record is built from the record's own outline
    and height_m, and height_m is what height resolution gave for the tags
    of the way: the default of 10.0 never reaches the record. *)
Theorem C6_geometry_packet :
  (forall way_id coordinates height,
      exists document geometry,
        _build_czml_document way_id coordinates height
        = [document; geometry] /\
        at_path ["polygon"; "positions"; "cartographicDegrees"] geometry
        = Some (JArr (positions_spec coordinates)) /\
        at_path ["polygon"; "perPositionHeight"] geometry
        = Some (JBool false) /\
        at_path ["polygon"; "height"] geometry = Some (JFloat 0) /\
        at_path ["polygon"; "extrudedHeight"] geometry
        = Some (JFloat (default 10%float height))) /\
  (forall els,
      exists res manifest,
        fetch_osm_buildings (Some (MkPayload (Some els))) true
        = inr (res, (map czml_entry (buildings res) ++ manifest)%list) /\
        Forall (fun r =>
                  exists w,
                    ODict.get (way_id r) (snd (index_elements els)) = Some w /\
                    height_m r = resolve_height (tags_of w))
               (buildings res)).
Proof.
  split.
  - intros way_id coordinates height. eexists _, _.
    split; [reflexivity |]. unfold at_path, assoc. simpl.
    rewrite cartographic_fold. repeat split.
  - intros els. unfold fetch_osm_buildings. cbn [elements]. cbv beta iota.
    pose proof (buildings_NoDup els) as Hnd.
    destruct (index_elements els) as [nodes blds]. cbn [fst snd] in *.
    cbv zeta.
    eexists (MkResult _ (results (process_ways nodes true blds)) _), _.
    cbn [buildings]. split.
    + rewrite process_ways_written. reflexivity.
    + rewrite process_ways_results.
      apply Forall_forall. intros r Hr.
      apply elem_of_records in Hr as (w & Hin & Ha).
      exists w. split; [now apply elem_of_get |].
      now apply assemble_Some in Ha as (_ & _ & _ & Hh & _).
Qed.

(** A building without any height tag: the record has no height, the
    packet written for it is extruded to 10.0. *)
Lemma C6_geometry_packet_witness :
  let a := PyFloat 0 0 in
  let b := PyFloat 1 1 in
  let els := [ Node 1 a a; Node 2 a b; Node 3 b b;
               Way (MkWay 100 (Some [1; 2; 3])
                      (Some {[ "building" := "yes" ]})) ] in
  exists r geometry document manifest,
    fetch_osm_buildings (Some (MkPayload (Some els))) true
    = inr ({| count := 1; buildings := [r];
              czml_files_out := Some ["way_100.czml"] |},
           ("way_100.czml", JArr [document; geometry]) :: manifest) /\
    height_m r = None /\
    at_path ["polygon"; "extrudedHeight"] geometry = Some (JFloat 10).
Proof.
  cbv zeta.
  destruct (proj1 C6_geometry_packet 100
              [Coord (PyFloat 0 0) (PyFloat 0 0);
               Coord (PyFloat 0 0) (PyFloat 1 1);
               Coord (PyFloat 1 1) (PyFloat 1 1);
               Coord (PyFloat 0 0) (PyFloat 0 0)] None)
    as (document & geometry & Hdoc & _ & _ & _ & Hext).
  eexists _, geometry, document, _. split; [|split; [|exact Hext]].
  - rewrite <- Hdoc. vm_compute. reflexivity.
  - reflexivity.
Defined.

(** C9. The packet document is a function of the way identifier, the
    numbers of the coordinates and the height alone: two calls on the same
    numbers, whichever float objects hold them, return the same document,
    whose clock and identifiers are fixed texts and the way identifier. *)
Theorem C9_build_czml_document_deterministic
    (way_id : Z) (c1 c2 : list coordinate) (height : option float) :
  Forall2 same_position c1 c2 ->
  _build_czml_document way_id c1 height
  = _build_czml_document way_id c2 height /\
  exists document geometry,
    _build_czml_document way_id c1 height = [document; geometry] /\
    at_path ["id"] document = Some (JStr "document") /\
    at_path ["clock"; "interval"] document
    = Some (JStr "2020-01-01T00:00:00Z/2020-01-01T00:01:00Z") /\
    at_path ["clock"; "currentTime"] document
    = Some (JStr "2020-01-01T00:00:00Z") /\
    at_path ["id"] geometry
    = Some (JStr ("building-" ++ Py.str_of_int way_id)).
Proof.
  intros Hsame. split.
  - unfold _build_czml_document.
    now rewrite !cartographic_fold, (positions_same c1 c2 Hsame).
  - eexists _, _. split; [reflexivity |]. repeat split.
Qed.

Lemma C9_build_czml_document_deterministic_witness :
  _build_czml_document 100 [Coord (PyFloat 0 1) (PyFloat 1 2)] (Some 9%float)
  = _build_czml_document 100 [Coord (PyFloat 7 1) (PyFloat 8 2)] (Some 9%float).
Proof.
  apply (C9_build_czml_document_deterministic 100
           [Coord (PyFloat 0 1) (PyFloat 1 2)]
           [Coord (PyFloat 7 1) (PyFloat 8 2)] (Some 9%float)).
  repeat constructor.
Defined.

End Czml.

(** ** Outlines *)

Module Outline.
Import Ring Assembly.

(** The part of the outline invariant that holds: every record of a run
    has a closed outline of at least four coordinates. *)
Lemma outline_closed_ring els output_czml :
  match fetch_osm_buildings (Some (MkPayload (Some els))) output_czml with
  | inl _ => False
  | inr (res, _) =>
      Forall (fun r => closed (outline r) = true /\
                       (4 <= length (outline r))%nat)
             (buildings res)
  end.
Proof.
  destruct (fetch_inr els output_czml) as [files ->]. simpl buildings.
  apply Forall_forall. intros r Hr.
  apply elem_of_records in Hr as (w & _ & Ha).
  exact (outline_closed _ _ _ _ Ha).
Qed.

(** The end-to-end scenario of the specification: three nodes and one
    building way over them, 9 metres high. *)
Example end_to_end :
  let c1 := Coord (PyFloat 0 0) (PyFloat 1 0) in
  let c2 := Coord (PyFloat 2 0) (PyFloat 3 1) in
  let c3 := Coord (PyFloat 4 1) (PyFloat 5 1) in
  fetch_osm_buildings
    (Some (MkPayload (Some
       [ Node 1 (PyFloat 0 0) (PyFloat 1 0);
         Node 2 (PyFloat 2 0) (PyFloat 3 1);
         Node 3 (PyFloat 4 1) (PyFloat 5 1);
         Way (MkWay 100 (Some [1; 2; 3])
                (Some (<[ "building" := "yes" ]> {[ "height" := "9" ]}))) ])))
    false
  = inr ({| count := 1;
            buildings := [ {| way_id := 100;
                              outline := [c1; c2; c3; c1];
                              height_m := Some 9%float;
                              address := None |} ];
            czml_files_out := None |}, []).
Proof. vm_compute. reflexivity. Qed.

(** A payload without "elements" is refused. *)
Example missing_elements :
  fetch_osm_buildings (Some (MkPayload None)) true = inl MissingElements.
Proof. reflexivity. Qed.

(** C2, where the code falls short of it.  The test before a record is
    built counts coordinates, not distinct ones: a building way over three
    nodes, two of which lie at the same position, gives a record whose
    outline is closed and has four coordinates, but only two distinct
    vertices. *)
Theorem C2_outline_two_distinct_vertices :
  let els :=
    [ Node 1 (PyFloat 0 0) (PyFloat 1 0);
      Node 2 (PyFloat 2 0) (PyFloat 3 1);
      Node 3 (PyFloat 4 0) (PyFloat 5 1);
      Way (MkWay 100 (Some [1; 2; 3]) (Some {[ "building" := "yes" ]})) ] in
  let c1 := Coord (PyFloat 0 0) (PyFloat 1 0) in
  let c2 := Coord (PyFloat 2 0) (PyFloat 3 1) in
  let c3 := Coord (PyFloat 4 0) (PyFloat 5 1) in
  fetch_osm_buildings (Some (MkPayload (Some els))) false
  = inr ({| count := 1;
            buildings := [ {| way_id := 100;
                              outline := [c1; c2; c3; c1];
                              height_m := None;
                              address := None |} ];
            czml_files_out := None |}, []) /\
  closed [c1; c2; c3; c1] = true /\
  coord_eq c2 c3 = true /\
  length (distinct [c1; c2; c3; c1]) = 2%nat.
Proof. cbv zeta. repeat split; vm_compute; reflexivity. Qed.

End Outline.

(** * Further properties of the code *)

(** ** More on numeric tokens and heights *)

Module HeightMore.
Import Re Py ReFacts CleanFacts FirstMatch Height.

(** A word of the pattern starts with a sign, a digit or a point. *)
Lemma token_first tok :
  lang number_re tok ->
  exists c tok', tok = String c tok' /\ plain c = false.
Proof.
  intros (sg & body & -> & Hsg & L).
  apply unsigned_shape in L
    as (ip & fp & Hip & Hfp & Hne & Hbody).
  unfold plain.
  destruct Hsg as [-> | (c & -> & Hc)].
  - destruct ip as [|d ip]; simpl in *.
    + destruct Hbody as [-> | (c & Hc & ->)].
      * destruct fp as [|d fp]; [now elim Hne |]. simpl in Hfp.
        apply andb_prop in Hfp as [Hd _].
        exists d, fp. now rewrite Hd.
      * exists c, fp. split; [reflexivity |]. rewrite Hc.
        now rewrite !orb_true_r.
    + apply andb_prop in Hip as [Hd _].
      destruct Hbody as [-> | (c & Hc & ->)]; simpl;
        eexists d, _; (split; [reflexivity | now rewrite Hd]).
  - exists c, body. split; [reflexivity |]. rewrite Hc.
    now rewrite orb_true_r.
Qed.

Lemma matches_plain c s : plain c = true -> matches number_re (String c s) = [].
Proof.
  intros Hc. destruct (matches number_re (String c s)) as [|[m rest] l] eqn:Hm;
    [reflexivity |].
  assert (In (m, rest) (matches number_re (String c s))) as Hin
    by (rewrite Hm; now left).
  apply matches_spec in Hin as [Heq L].
  apply token_first in L as (c' & tok' & -> & Hc').
  simpl in Heq. injection Heq as <- _. congruence.
Qed.

Lemma search_skip pre s :
  all plain pre = true ->
  search number_re (pre ++ s)
  = match search number_re s with
    | Some (before, tok, rest) => Some (pre ++ before, tok, rest)
    | None => None
    end.
Proof.
  induction pre as [|c pre IH]; intros Hall.
  - simpl. now destruct (search number_re s) as [[[? ?] ?]|].
  - simpl in Hall. apply andb_prop in Hall as [Hc Hall].
    change (String c pre ++ s) with (String c (pre ++ s)).
    cbn [search]. rewrite (matches_plain c _ Hc), (IH Hall).
    now destruct (search number_re s) as [[[? ?] ?]|].
Qed.

(** X1. Text in front of the number is skipped: a prefix without digit,
    sign or point does not change what [_clean] returns. *)
Theorem X1_clean_skips_plain_prefix (pre value : string) :
  all plain pre = true -> _clean (pre ++ value) = _clean value.
Proof.
  intros Hall. unfold _clean.
  destruct value as [|c value].
  - rewrite append_nil_r. simpl (negb (truthy "")). cbv iota.
    destruct pre as [|c pre]; [reflexivity |]. simpl negb. cbv iota.
    pose proof (search_skip (String c pre) "" Hall) as Hs.
    rewrite append_nil_r in Hs. rewrite Hs. reflexivity.
  - rewrite truthy_append_r by discriminate. simpl negb. cbv iota.
    rewrite (search_skip pre _ Hall).
    now destruct (search number_re (String c value)) as [[[? ?] ?]|].
Qed.

Lemma X1_clean_skips_plain_prefix_witness :
  _clean ("height ca " ++ "12 m") = _clean "12 m".
Proof. apply (X1_clean_skips_plain_prefix "height ca " "12 m"). reflexivity. Defined.

(** X2. [_normalize_height] answers [None] exactly when neither the raw
    height nor the raw levels has a digit ([None] and the empty string
    included): any digit anywhere in either text yields a height. *)
Theorem X2_normalize_height_None_iff (raw_height raw_levels : option string) :
  _normalize_height raw_height raw_levels = None <->
  any is_digit (or_str raw_height "") = false /\
  any is_digit (or_str raw_levels "") = false.
Proof.
  unfold _normalize_height. rewrite <- !clean_None_iff.
  destruct (_clean (or_str raw_height "")) as [h|].
  - split; [discriminate | intros [H _]; discriminate H].
  - destruct (_clean (or_str raw_levels "")) as [l|].
    + split; [discriminate | intros [_ H]; discriminate H].
    + now split.
Qed.

End HeightMore.

(** ** More on addresses *)

Module AddressMore.
Import Py Address.

(** [_format_address] on the list of the parts. *)
Lemma format_address_parts tags :
  _format_address tags
  = match address_parts_spec tags with
    | [] => None
    | parts => Some (join ", " parts)
    end.
Proof.
  unfold _format_address. rewrite address_fold, app_nil_l.
  change (omap (part tags) _ADDRESS_FIELDS) with (address_parts_spec tags).
  cbv zeta. now destruct (address_parts_spec tags).
Qed.

Lemma part_None_iff tags key :
  part tags key = None <-> truthy_opt (tags !! key) = false.
Proof.
  unfold part, truthy_opt. destruct (tags !! key) as [value|]; [|easy].
  destruct (truthy value); easy.
Qed.

Lemma omap_nil_iff {A B : Type} (f : A -> option B) (l : list A) :
  omap f l = [] <-> forall x, x ∈ l -> f x = None.
Proof.
  induction l as [|x l IH].
  - split; [intros _ y Hy; now apply elem_of_nil in Hy | reflexivity].
  - rewrite omap_cons. destruct (f x) as [y|] eqn:Hx.
    + split; [discriminate |]. intros H.
      specialize (H x (list_elem_of_here x l)). congruence.
    + rewrite IH. split.
      * intros H y Hy. apply elem_of_cons in Hy as [-> | Hy]; auto.
      * intros H y Hy. apply H. now right.
Qed.

(** X3. The address is absent exactly when each of the eight address tags
    is absent or empty; empty values count as absent. *)
Theorem X3_format_address_None_iff (tags : gmap string string) :
  _format_address tags = None <->
  forall key, key ∈ _ADDRESS_FIELDS -> truthy_opt (tags !! key) = false.
Proof.
  rewrite format_address_parts.
  unfold address_parts_spec.
  destruct (omap (part tags) _ADDRESS_FIELDS) as [|p rest] eqn:Hparts.
  - split; [|reflexivity]. intros _ key Hkey.
    apply part_None_iff. now apply (proj1 (omap_nil_iff _ _) Hparts).
  - split; [discriminate |]. intros H.
    assert (omap (part tags) _ADDRESS_FIELDS = []) as Hnil; [|congruence].
    apply omap_nil_iff. intros key Hkey. apply part_None_iff. now apply H.
Qed.

Lemma omap_agree {A B : Type} (f g : A -> option B) (l : list A) :
  (forall x, x ∈ l -> f x = g x) -> omap f l = omap g l.
Proof.
  induction l as [|x l IH]; intros H; [reflexivity |].
  rewrite !omap_cons, (H x) by now left.
  rewrite IH; [reflexivity |]. intros y Hy. apply H. now right.
Qed.

(** X4. The address is read from the eight address tags and from nothing
    else: two tag mappings that agree on them format to the same address,
    whatever other tags they hold. *)
Theorem X4_format_address_eight_tags (tags1 tags2 : gmap string string) :
  (forall key, key ∈ _ADDRESS_FIELDS -> tags1 !! key = tags2 !! key) ->
  _format_address tags1 = _format_address tags2.
Proof.
  intros Hagree. rewrite !format_address_parts. unfold address_parts_spec.
  rewrite (omap_agree (part tags1) (part tags2)); [reflexivity |].
  intros key Hkey. unfold part. now rewrite (Hagree key Hkey).
Qed.

Lemma X4_format_address_eight_tags_witness :
  _format_address
    (<[ "addr:unit" := "4B" ]> (<[ "name" := "Town Hall" ]>
       {[ "addr:city" := "Leeds" ]}))
  = _format_address {[ "addr:city" := "Leeds" ]}.
Proof.
  apply X4_format_address_eight_tags.
  intros key Hkey. unfold _ADDRESS_FIELDS in Hkey.
  repeat (apply elem_of_cons in Hkey as [-> | Hkey]; [reflexivity |]).
  now apply elem_of_nil in Hkey.
Defined.

End AddressMore.

(** ** More on rings and outlines *)

Module RingMore.
Import Ring ODictFacts Indexing Assembly.

Lemma app_singleton_neq {A : Type} (l : list A) (x : A) : (l ++ [x])%list <> l.
Proof.
  intros H. apply (f_equal length) in H. rewrite length_app in H.
  simpl in H. lia.
Qed.

(** X5. Closing leaves a ring as it is exactly when it is already closed
    (the empty ring and a single coordinate are); otherwise it appends the
    first coordinate, and nothing else: the given coordinates stay in front,
    in order. *)
Theorem X5_ensure_closed_ring_cases (nodes : list coordinate) :
  (_ensure_closed_ring nodes = nodes <-> closed nodes = true) /\
  (closed nodes = false ->
   exists first rest,
     nodes = first :: rest /\
     _ensure_closed_ring nodes = (nodes ++ [first])%list) /\
  _ensure_closed_ring [] = [] /\
  (forall c, _ensure_closed_ring [c] = [c]).
Proof.
  split; [|split; [|split]].
  - split; [|apply closed_fixed].
    destruct nodes as [|first rest]; [reflexivity |].
    unfold _ensure_closed_ring, closed.
    destruct (coord_eq first (List.last (first :: rest) first));
      [reflexivity |].
    simpl negb. cbv iota. intros H.
    now apply (app_singleton_neq (first :: rest) first) in H.
  - destruct nodes as [|first rest]; [discriminate |].
    unfold closed, _ensure_closed_ring. intros ->. now exists first, rest.
  - reflexivity.
  - intros c. unfold _ensure_closed_ring. simpl List.last.
    now rewrite coord_eq_refl.
Qed.

Lemma X5_ensure_closed_ring_cases_witness :
  let a := Coord (PyFloat 0 0) (PyFloat 1 0) in
  let b := Coord (PyFloat 2 0) (PyFloat 3 1) in
  exists first rest,
    [a; b] = first :: rest /\
    _ensure_closed_ring [a; b] = ([a; b] ++ [first])%list.
Proof.
  cbv zeta.
  apply (proj1 (proj2 (X5_ensure_closed_ring_cases
                         [Coord (PyFloat 0 0) (PyFloat 1 0);
                          Coord (PyFloat 2 0) (PyFloat 3 1)]))).
  reflexivity.
Defined.

End RingMore.

(** ** More on the pipeline *)

Module PipelineMore.
Import Ring ODictFacts Indexing Assembly.

Lemma filter_filter_andb {A : Type} (f g : A -> bool) (l : list A) :
  List.filter f (List.filter g l) = List.filter (fun x => f x && g x) l.
Proof.
  induction l as [|x l IH]; [reflexivity |]. simpl.
  destruct (g x); simpl; rewrite ?andb_false_r, ?andb_true_r.
  - destruct (f x); now rewrite IH.
  - exact IH.
Qed.

Lemma filter_agree {A : Type} (f g : A -> bool) (l : list A) :
  (forall x, f x = g x) -> List.filter f l = List.filter g l.
Proof.
  intros H. induction l as [|x l IH]; [reflexivity |]. simpl.
  now rewrite H, IH.
Qed.

Lemma keys_set_inb {V : Type} (k : Z) (v : V) (d : list (Z * V)) :
  map fst (ODict.set k v d)
  = if inb k (map fst d) then map fst d else (map fst d ++ [k])%list.
Proof.
  unfold inb. induction d as [|[k' v'] d IH]; simpl; [reflexivity |].
  rewrite (Z.eqb_sym k k').
  destruct (Z.eqb_spec k' k) as [-> | Hne]; simpl; [reflexivity |].
  rewrite IH. now destruct (existsb (Z.eqb k) (map fst d)).
Qed.

Lemma inb_snoc id ids k : inb id (ids ++ [k]) = inb id ids || (id =? k)%Z.
Proof. unfold inb. rewrite existsb_app. simpl. now rewrite orb_false_r. Qed.

Lemma inb_eqb id ids k : inb k ids = true -> inb id ids = false -> (id =? k)%Z = false.
Proof.
  intros Hk Hid. destruct (Z.eqb_spec id k) as [-> | _]; [congruence | reflexivity].
Qed.

(** The keys of the dictionary of buildings, while the elements go by. *)
Lemma keys_fold els st :
  map fst (snd (fold_left index_element els st))
  = (map fst (snd st)
     ++ List.filter (fun id => negb (inb id (map fst (snd st)))) (first_ids els))%list.
Proof.
  revert st. induction els as [|el els IH]; intros st; simpl.
  - now rewrite app_nil_r.
  - destruct el as [i la lo | w |]; simpl; try (rewrite IH; reflexivity).
    destruct (is_building w); [|apply IH].
    rewrite IH. simpl snd. rewrite keys_set_inb.
    destruct (inb (w_id w) (map fst (snd st))) eqn:Hin; simpl.
    + rewrite Hin. simpl. rewrite filter_filter_andb. f_equal.
      apply filter_agree. intros id.
      destruct (inb id (map fst (snd st))) eqn:Hid; [reflexivity |].
      now rewrite (inb_eqb id _ _ Hin Hid).
    + rewrite Hin. simpl. rewrite <- app_assoc. simpl.
      rewrite filter_filter_andb. do 2 f_equal.
      apply filter_agree. intros id. rewrite inb_snoc.
      now rewrite negb_orb.
Qed.

Lemma buildings_keys els : map fst (snd (index_elements els)) = first_ids els.
Proof.
  unfold index_elements. rewrite keys_fold. simpl.
  induction (first_ids els) as [|id ids IH]; [reflexivity |].
  simpl. now rewrite IH.
Qed.

Lemma omap_get_agree {V B : Type} (f : Z -> V -> option B)
    (d d' : list (Z * V)) (ks : list Z) :
  (forall k, k ∈ ks -> ODict.get k d = ODict.get k d') ->
  omap (fun k => match ODict.get k d with Some v => f k v | None => None end) ks
  = omap (fun k => match ODict.get k d' with Some v => f k v | None => None end)
         ks.
Proof.
  intros H. induction ks as [|k ks IH]; [reflexivity |].
  rewrite !omap_cons, (H k) by now left.
  rewrite IH; [reflexivity |]. intros k' Hk'. apply H. now right.
Qed.

(** Going through the items of a dictionary is going through its keys and
    looking each one up. *)
Lemma omap_items_keys {V B : Type} (f : Z -> V -> option B) (d : list (Z * V)) :
  NoDup (map fst d) ->
  omap (fun item => f (fst item) (snd item)) d
  = omap (fun k => match ODict.get k d with Some v => f k v | None => None end)
         (map fst d).
Proof.
  induction d as [|[k v] d IH]; intros Hd; [reflexivity |].
  simpl in Hd. apply NoDup_cons in Hd as [Hnot Hd].
  simpl map. rewrite !omap_cons. simpl ODict.get at 1. rewrite Z.eqb_refl.
  simpl fst. simpl snd. rewrite (IH Hd).
  rewrite (omap_get_agree f ((k, v) :: d) d (map fst d)); [reflexivity |].
  intros k' Hk'. simpl.
  destruct (Z.eqb_spec k k') as [-> | _]; [contradiction | reflexivity].
Qed.

(** The records of a run, read off the payload. *)
Lemma records_first_ids els :
  omap (assemble_item (fst (index_elements els))) (snd (index_elements els))
  = omap (record_of els) (first_ids els).
Proof.
  unfold assemble_item.
  rewrite (omap_items_keys (assemble (fst (index_elements els))))
    by apply buildings_NoDup.
  rewrite buildings_keys. apply AddressMore.omap_agree.
  intros id _. unfold record_of. now rewrite buildings_last_building.
Qed.

(** X6. The result lists the buildings in the order in which their way
    identifiers first appear in the payload, each identifier once, while
    the record of an identifier is assembled from the last building-tagged
    way that carries it; identifiers whose way does not assemble are left
    out. *)
Theorem X6_records_in_order_of_first_appearance
    (els : list element) (output_czml : bool) :
  exists files,
    fetch_osm_buildings (Some (MkPayload (Some els))) output_czml
    = inr ({| count := length (omap (record_of els) (first_ids els));
              buildings := omap (record_of els) (first_ids els);
              czml_files_out :=
                if output_czml
                then Some (map (fun r => czml_name (way_id r))
                             (omap (record_of els) (first_ids els)))
                else None |},
           files).
Proof.
  destruct (fetch_inr els output_czml) as [files Hfetch].
  exists files. now rewrite Hfetch, records_first_ids.
Qed.

Lemma index_elements_ignored pre el post :
  ignored el = true ->
  index_elements (pre ++ el :: post) = index_elements (pre ++ post).
Proof.
  intros Hel. unfold index_elements. rewrite !fold_left_app. simpl.
  destruct el as [i la lo | w |]; simpl in *; [discriminate | | reflexivity].
  apply negb_true_iff in Hel. now rewrite Hel.
Qed.

(** X7. Elements that are neither nodes nor ways with a non-empty
    "building" tag (relations, roads, ways without tags, elements without a
    known type) have no effect: taking one out of the payload changes
    nothing in what is returned or written. *)
Theorem X7_other_elements_ignored
    (pre post : list element) (el : element) (output_czml : bool) :
  ignored el = true ->
  fetch_osm_buildings
    (Some (MkPayload (Some (pre ++ el :: post)%list))) output_czml
  = fetch_osm_buildings
      (Some (MkPayload (Some (pre ++ post)%list))) output_czml.
Proof.
  intros Hel. unfold fetch_osm_buildings. cbn [elements].
  now rewrite (index_elements_ignored pre el post Hel).
Qed.

Lemma X7_other_elements_ignored_witness :
  let road := Way (MkWay 5 (Some [1; 2]) (Some {[ "highway" := "path" ]})) in
  let a := PyFloat 0 0 in
  fetch_osm_buildings
    (Some (MkPayload (Some ([Node 1 a a] ++ road :: [Node 2 a a])%list))) true
  = fetch_osm_buildings
      (Some (MkPayload (Some ([Node 1 a a] ++ [Node 2 a a])%list))) true.
Proof.
  cbv zeta.
  apply (X7_other_elements_ignored
           [Node 1 (PyFloat 0 0) (PyFloat 0 0)]
           [Node 2 (PyFloat 0 0) (PyFloat 0 0)]
           (Way (MkWay 5 (Some [1; 2]) (Some {[ "highway" := "path" ]})))).
  reflexivity.
Defined.

(** Way 7 comes twice, around way 8: its record keeps the first place and
    is built from the second element (the outline starts at node 4). *)
Example order_of_records :
  let a := PyFloat 0 0 in
  let b := PyFloat 1 1 in
  let yes : gmap string string := {[ "building" := "yes" ]} in
  let els := [ Node 1 a a; Node 2 a b; Node 3 b b; Node 4 b a;
               Way (MkWay 7 (Some [1; 2; 3; 4]) (Some yes));
               Way (MkWay 8 (Some [2; 3; 4]) (Some yes));
               Way (MkWay 7 (Some [4; 3; 2; 1]) (Some yes)) ] in
  first_ids els = [7; 8] /\
  map (fun r => (way_id r, hd_error (outline r)))
      (omap (record_of els) (first_ids els))
  = [ (7, Some (Coord b a)); (8, Some (Coord a b)) ].
Proof. cbv zeta. split; vm_compute; reflexivity. Qed.

(** X8. The outline of a record is the list of the coordinates of the node
    references of its way that the index knows, in the order of the
    references, followed by at most one more coordinate, the copy of the
    first that closes the ring; no other coordinate enters an outline. *)
Theorem X8_outline_follows_references
    (els : list element) (output_czml : bool) :
  match fetch_osm_buildings (Some (MkPayload (Some els))) output_czml with
  | inl _ => False
  | inr (res, _) =>
      Forall (fun r =>
                exists w,
                  last_building (way_id r) els = Some w /\
                  let coordinates :=
                    omap (fun id => last_node id els) (default [] (w_nodes w)) in
                  outline r = coordinates \/
                  exists first rest,
                    coordinates = first :: rest /\
                    outline r = (coordinates ++ [first])%list)
             (buildings res)
  end.
Proof.
  destruct (fetch_inr els output_czml) as [files ->]. simpl buildings.
  apply Forall_forall. intros r Hr.
  apply elem_of_records in Hr as (w & Hin & Ha).
  exists w. split.
  - rewrite <- buildings_last_building.
    apply elem_of_get; [apply buildings_NoDup | exact Hin].
  - apply assemble_Some in Ha as (_ & -> & _).
    rewrite resolve_coordinates_omap.
    rewrite (AddressMore.omap_agree
               (fun id => fst (index_elements els) !! id)
               (fun id => last_node id els))
      by (intros id _; apply nodes_last_node).
    cbv zeta.
    set (coordinates := omap (fun id => last_node id els) (default [] (w_nodes w))).
    destruct (closed coordinates) eqn:Hc.
    + left. now apply closed_fixed.
    + right. destruct coordinates as [|first rest]; [discriminate |].
      exists first, rest. split; [reflexivity |].
      unfold closed in Hc. unfold _ensure_closed_ring. now rewrite Hc.
Qed.

(** What a run writes, with the way identifiers of its records distinct. *)
Lemma run_files (els : list element) :
  exists records,
    NoDup (map way_id records) /\
    fetch_osm_buildings (Some (MkPayload (Some els))) false
    = inr ({| count := length records; buildings := records;
              czml_files_out := None |}, []) /\
    fetch_osm_buildings (Some (MkPayload (Some els))) true
    = inr ({| count := length records; buildings := records;
              czml_files_out :=
                Some (map (fun r => czml_name (way_id r)) records) |},
           (map czml_entry records
            ++ match records with
               | [] => []
               | _ :: _ =>
                   [("czml_manifest.json",
                      JObj [("files",
                              JArr (map JStr
                                      (map (fun r => czml_name (way_id r))
                                           records)))])]
               end)%list).
Proof.
  exists (omap (assemble_item (fst (index_elements els)))
               (snd (index_elements els))).
  split; [apply records_NoDup, buildings_NoDup |].
  unfold fetch_osm_buildings. cbn [elements]. cbv beta iota.
  destruct (index_elements els) as [nodes blds]. cbn [fst snd]. cbv zeta.
  split.
  - destruct (process_fold nodes false blds
                {| results := []; czml_files := []; written := [] |})
      as (Hr & Hf & Hw).
    fold (process_ways nodes false blds) in Hr, Hf, Hw.
    simpl in Hr, Hf, Hw. now rewrite Hr, Hw.
  - destruct (process_fold nodes true blds
                {| results := []; czml_files := []; written := [] |})
      as (Hr & Hf & Hw).
    fold (process_ways nodes true blds) in Hr, Hf, Hw.
    simpl in Hr, Hf, Hw. rewrite Hr, Hf, Hw.
    now destruct (omap (assemble_item nodes) blds).
Qed.

(** X9. CZML output changes nothing in the records.  With it off no file
    is written and the list of files is absent.  With it on one file is
    written per record, in the order of the records and named after the way,
    and, when there is at least one record, a manifest that lists exactly
    these names; without a record no manifest is written. *)
Theorem X9_czml_output (els : list element) :
  exists records,
    fetch_osm_buildings (Some (MkPayload (Some els))) false
    = inr ({| count := length records; buildings := records;
              czml_files_out := None |}, []) /\
    fetch_osm_buildings (Some (MkPayload (Some els))) true
    = inr ({| count := length records; buildings := records;
              czml_files_out :=
                Some (map (fun r => czml_name (way_id r)) records) |},
           (map czml_entry records
            ++ match records with
               | [] => []
               | _ :: _ =>
                   [("czml_manifest.json",
                      JObj [("files",
                              JArr (map JStr
                                      (map (fun r => czml_name (way_id r))
                                           records)))])]
               end)%list).
Proof.
  destruct (run_files els) as (records & _ & Hoff & Hon).
  now exists records.
Qed.

End PipelineMore.

(** ** File names *)

Module FileNames.
Import Assembly Indexing PipelineMore.

Lemma to_int_proper (n : Z) :
  Z.to_int n <> Decimal.Pos Decimal.Nil /\ Z.to_int n <> Decimal.Neg Decimal.Nil.
Proof.
  destruct n as [|p|p]; simpl; split; try discriminate;
    intros [= H]; now apply DecimalPos.Unsigned.to_uint_nonnil in H.
Qed.

(** [str] of an integer can be read back. *)
Lemma str_of_int_inj n n' : Py.str_of_int n = Py.str_of_int n' -> n = n'.
Proof.
  unfold Py.str_of_int. intros H.
  apply (f_equal NilZero.int_of_string) in H.
  destruct (to_int_proper n) as [Hp Hn], (to_int_proper n') as [Hp' Hn'].
  rewrite !NilZero.isi in H by assumption.
  injection H as H. now apply DecimalZ.to_int_inj.
Qed.

Lemma append_inj_r (a b t : string) : a ++ t = b ++ t -> a = b.
Proof.
  revert b. induction a as [|c a IH]; intros b H.
  - destruct b as [|c b]; [reflexivity |].
    apply (f_equal String.length) in H. simpl in H.
    rewrite append_length in H. lia.
  - destruct b as [|c' b].
    + apply (f_equal String.length) in H. simpl in H.
      rewrite append_length in H. lia.
    + simpl in H. injection H as <- H. f_equal. now apply IH.
Qed.

Lemma czml_name_inj n n' : czml_name n = czml_name n' -> n = n'.
Proof.
  unfold czml_name. intros H. simpl in H. injection H as H.
  apply append_inj_r in H. now apply str_of_int_inj.
Qed.

Lemma czml_name_not_manifest n : czml_name n <> "czml_manifest.json".
Proof. unfold czml_name. simpl. discriminate. Qed.

(** X10. In one run no file name is used twice: the files of two records
    have different names, and none of them has the name of the manifest, so
    no file of the run overwrites another. *)
Theorem X10_file_names_distinct (els : list element) (output_czml : bool) :
  match fetch_osm_buildings (Some (MkPayload (Some els))) output_czml with
  | inl _ => False
  | inr (_, files) => NoDup (map fst files)
  end.
Proof.
  destruct (run_files els) as (records & Hnd & Hoff & Hon).
  destruct output_czml; [rewrite Hon | rewrite Hoff; constructor].
  rewrite map_app.
  assert (map fst (map czml_entry records)
          = map czml_name (map way_id records)) as ->.
  { rewrite !map_map. reflexivity. }
  assert (NoDup (map czml_name (map way_id records))) as Hnames.
  { apply NoDup_fmap_2; [|exact Hnd]. intros n n'. apply czml_name_inj. }
  match goal with
  | |- NoDup (_ ++ map fst ?m) =>
      assert (map fst m = [] \/ map fst m = ["czml_manifest.json"]) as [-> | ->]
        by (destruct records; [now left | now right])
  end.
  - now rewrite app_nil_r.
  - apply NoDup_app. split; [exact Hnames |]. split; [|apply NoDup_singleton].
    intros name Hname Hm. apply list_elem_of_singleton in Hm.
    subst name. apply list_elem_of_fmap in Hname as (n & Heq & _).
    symmetry in Heq. now apply czml_name_not_manifest in Heq.
Qed.

End FileNames.

(** ** The bounding box *)

Module BoundingBox.

Lemma SFcompare_antisym x y :
  SFcompare y x = option_map CompOpp (SFcompare x y).
Proof.
  destruct x as [sx | sx | | sx mx ex], y as [sy | sy | | sy my ey];
    try destruct sx; try destruct sy; try reflexivity; simpl;
    rewrite (Z.compare_antisym ex ey);
    destruct (ex ?= ey)%Z; simpl; try reflexivity;
    pose proof (Pos.compare_cont_antisym mx my Eq) as H; simpl in H;
    rewrite <- H; now rewrite ?CompOpp_involutive.
Qed.

Lemma SFcompare_None x y :
  SFcompare x y = None -> SFcompare x x = None \/ SFcompare y y = None.
Proof.
  destruct x as [sx | sx | | sx mx ex], y as [sy | sy | | sy my ey];
    try destruct sx; try destruct sy; simpl; try discriminate; auto.
Qed.

Lemma ltb_cmp a b : (a <? b)%float = match cmp a b with Some Lt => true | _ => false end.
Proof. now rewrite FloatAxioms.ltb_spec. Qed.

Lemma leb_cmp a b :
  (a <=? b)%float = match cmp a b with Some (Lt | Eq) => true | _ => false end.
Proof. now rewrite FloatAxioms.leb_spec. Qed.

Lemma eqb_cmp a b : (a =? b)%float = match cmp a b with Some Eq => true | _ => false end.
Proof. now rewrite FloatAxioms.eqb_spec. Qed.

Lemma cmp_refl a : is_nan a = false -> cmp a a = Some Eq.
Proof.
  unfold is_nan. rewrite eqb_cmp. now destruct (cmp a a) as [[| |]|].
Qed.

Lemma cmp_antisym a b : cmp b a = option_map CompOpp (cmp a b).
Proof. apply SFcompare_antisym. Qed.

Lemma cmp_Some a b :
  is_nan a = false -> is_nan b = false -> exists c, cmp a b = Some c.
Proof.
  intros Ha Hb. destruct (cmp a b) as [c|] eqn:Hc; [now exists c |].
  apply SFcompare_None in Hc as [H | H].
  - pose proof (cmp_refl a Ha) as Hr. unfold cmp in Hr. congruence.
  - pose proof (cmp_refl b Hb) as Hr. unfold cmp in Hr. congruence.
Qed.

(** [min] and [max] of two numbers: in order, the same (up to [==]) in
    either order of the arguments, and the arguments themselves when they
    come in order. *)
Lemma min_max a b :
  is_nan a = false -> is_nan b = false ->
  (py_min a b <=? py_max a b)%float = true /\
  (py_min b a =? py_min a b)%float = true /\
  (py_max b a =? py_max a b)%float = true /\
  ((a <=? b)%float = true ->
   py_min a b = a /\ (py_max a b =? b)%float = true).
Proof.
  intros Ha Hb. unfold py_min, py_max.
  rewrite !ltb_cmp, leb_cmp.
  pose proof (cmp_refl a Ha) as Haa. pose proof (cmp_refl b Hb) as Hbb.
  destruct (cmp_Some a b Ha Hb) as [c Hab].
  pose proof (cmp_antisym a b) as Hba. rewrite Hab in Hba. simpl in Hba.
  rewrite Hab, Hba.
  destruct c; simpl; rewrite ?leb_cmp, ?eqb_cmp, ?Haa, ?Hbb, ?Hab, ?Hba;
    repeat split; try reflexivity; discriminate.
Qed.

(** X11. For corners without NaN the bounding box is in order (south is
    at most north, west at most east) whichever way round the two corners
    are given: giving them the other way round yields the same four numbers
    (up to [==]), and corners already in order are kept as they are. *)
Theorem X11_bounding_box_normalised (sw_corner ne_corner : float * float) :
  is_nan (fst sw_corner) = false -> is_nan (snd sw_corner) = false ->
  is_nan (fst ne_corner) = false -> is_nan (snd ne_corner) = false ->
  let box := bounding_box sw_corner ne_corner in
  let box' := bounding_box ne_corner sw_corner in
  (south box <=? north box)%float = true /\
  (west box <=? east box)%float = true /\
  ((south box' =? south box)%float = true /\
   (west box' =? west box)%float = true /\
   (north box' =? north box)%float = true /\
   (east box' =? east box)%float = true) /\
  ((fst sw_corner <=? fst ne_corner)%float = true ->
   (snd sw_corner <=? snd ne_corner)%float = true ->
   south box = fst sw_corner /\ west box = snd sw_corner /\
   (north box =? fst ne_corner)%float = true /\
   (east box =? snd ne_corner)%float = true).
Proof.
  intros H1 H2 H3 H4. cbv zeta. unfold bounding_box. simpl.
  destruct (min_max (fst sw_corner) (fst ne_corner) H1 H3)
    as (Hlat & Hmin1 & Hmax1 & Hord1).
  destruct (min_max (snd sw_corner) (snd ne_corner) H2 H4)
    as (Hlng & Hmin2 & Hmax2 & Hord2).
  repeat split; try assumption.
  - now apply Hord1.
  - now apply Hord2.
  - now apply Hord1.
  - now apply Hord2.
Qed.

Lemma X11_bounding_box_normalised_witness :
  let box := bounding_box (2, 7)%float (1, 5)%float in
  (south box <=? north box)%float = true /\
  (west box <=? east box)%float = true.
Proof.
  cbv zeta.
  destruct (X11_bounding_box_normalised (2, 7)%float (1, 5)%float
              eq_refl eq_refl eq_refl eq_refl) as (Hlat & Hlng & _).
  exact (conj Hlat Hlng).
Defined.

End BoundingBox.

(** ** The sources of the payload *)

Module Sources.

Lemma candidate_urls_cons overpass_urls :
  exists url urls, candidate_urls overpass_urls = url :: urls.
Proof.
  destruct overpass_urls as [[|url urls]|]; simpl; eauto.
Qed.

Lemma load_offline_inr w offline_payload_path acq :
  load_offline w offline_payload_path = inr acq -> acq_requests acq = [].
Proof.
  unfold load_offline.
  destruct offline_payload_path as [path|]; [|now intros [= <-]].
  destruct (Py.truthy path); [|now intros [= <-]].
  destruct (file_at w path); [| |discriminate]; now intros [= <-].
Qed.

(** The loop goes past the endpoints that fail, and keeps their texts. *)
Lemma request_loop_failures w box pre rest acq msgs :
  acq_payload acq = None ->
  failures w box (length (acq_requests acq)) pre = Some msgs ->
  request_loop w box (pre ++ rest) acq
  = request_loop w box rest
      {| acq_payload := None;
         acq_errors := (acq_errors acq ++ msgs)%list;
         acq_requests := (acq_requests acq ++ pre)%list |}.
Proof.
  revert acq msgs. induction pre as [|url pre IH]; intros acq msgs Hnone Hf.
  - simpl in Hf. injection Hf as <-. simpl. rewrite !app_nil_r.
    destruct acq as [pl errors requests]. simpl in *. now subst pl.
  - simpl in Hf.
    destruct (failure url (http_get w (length (acq_requests acq)) box url))
      as [msg|] eqn:Hmsg; [|discriminate].
    destruct (failures w box (S (length (acq_requests acq))) pre)
      as [msgs'|] eqn:Hrest; [|discriminate].
    injection Hf as <-. simpl.
    destruct (http_get w (length (acq_requests acq)) box url)
      as [exc | exc | pl]; simpl in Hmsg; [| |discriminate];
      injection Hmsg as <-;
      (rewrite (IH _ msgs');
       [simpl; now rewrite <- !app_assoc
       | simpl; try assumption; reflexivity
       | simpl; rewrite length_app; simpl;
         now replace (length (acq_requests acq) + 1)%nat
           with (S (length (acq_requests acq))) by lia]).
Qed.

Lemma fetch_Some_cases pl output_czml :
  fetch_osm_buildings (Some pl) output_czml = inl MissingElements \/
  exists out, fetch_osm_buildings (Some pl) output_czml = inr out.
Proof.
  unfold fetch_osm_buildings. destruct (elements pl) as [els|]; [|now left].
  right. destruct (index_elements els). eauto.
Qed.

Lemma fetch_in_loaded w sw_corner ne_corner overpass_urls output_czml
    offline_payload_path acq pl :
  load_offline w offline_payload_path = inr acq ->
  acq_payload acq = Some pl ->
  fetch_osm_buildings_in w sw_corner ne_corner overpass_urls output_czml
    offline_payload_path
  = outcome pl output_czml (acq_requests acq).
Proof.
  intros Hload Hpl. unfold fetch_osm_buildings_in, outcome.
  rewrite Hload, Hpl. cbv zeta. rewrite Hpl.
  now destruct (fetch_Some_cases pl output_czml) as [-> | [out ->]].
Qed.

(** X12. A readable offline file decides the run: when it decodes to an
    object, that object is the payload and no endpoint is requested,
    whatever endpoints were given; when it cannot be read or decoded, what
    reading it raised comes out, and the network is not tried instead. *)
Theorem X12_offline_file_first (w : world)
    (sw_corner ne_corner : float * float)
    (overpass_urls : option (list string)) (output_czml : bool)
    (path : string) :
  Py.truthy path = true ->
  (forall pl,
      file_at w path = FileJson (Some pl) ->
      fetch_osm_buildings_in w sw_corner ne_corner overpass_urls output_czml
        (Some path)
      = outcome pl output_czml []) /\
  (file_at w path = FileUnreadable ->
   fetch_osm_buildings_in w sw_corner ne_corner overpass_urls output_czml
     (Some path)
   = inl OfflineFileError).
Proof.
  intros Hpath. split.
  - intros pl Hfile.
    apply (fetch_in_loaded w sw_corner ne_corner overpass_urls output_czml
             (Some path) {| acq_payload := Some pl; acq_errors := [];
                            acq_requests := [] |} pl); [|reflexivity].
    unfold load_offline. now rewrite Hpath, Hfile.
  - intros Hfile. unfold fetch_osm_buildings_in, load_offline.
    now rewrite Hpath, Hfile.
Qed.

Lemma X12_offline_file_first_witness :
  fetch_osm_buildings_in example_world (0, 0)%float (1, 1)%float
    (Some ["https://a.example/api"]) false (Some "saved.json")
  = outcome (MkPayload (Some [])) false [].
Proof.
  apply (proj1 (X12_offline_file_first example_world (0, 0)%float (1, 1)%float
                  (Some ["https://a.example/api"]) false "saved.json" eq_refl)).
  reflexivity.
Defined.

Lemma request_loop_answer w box pre url post acq msgs pl :
  acq_payload acq = None -> acq_requests acq = [] ->
  failures w box 0 pre = Some msgs ->
  http_get w (length pre) box url = JsonBody pl ->
  request_loop w box (pre ++ url :: post) acq
  = {| acq_payload := pl;
       acq_errors := (acq_errors acq ++ msgs)%list;
       acq_requests := (pre ++ [url])%list |}.
Proof.
  intros Hnone Hreq Hf Hurl.
  rewrite (request_loop_failures w box pre (url :: post) acq msgs Hnone)
    by now rewrite Hreq.
  simpl. rewrite Hreq. simpl. now rewrite Hurl.
Qed.

(** X13. The first endpoint whose body decodes to an object supplies the
    payload: the failures of the endpoints before it are dropped without an
    error, the endpoints after it are never requested, and a payload without
    "elements" is refused without trying them either. *)
Theorem X13_first_answer_wins (w : world)
    (sw_corner ne_corner : float * float)
    (overpass_urls : option (list string)) (output_czml : bool)
    (offline_payload_path : option string) (acq : acquisition)
    (pre post msgs : list string) (url : string) (pl : payload) :
  load_offline w offline_payload_path = inr acq ->
  acq_payload acq = None ->
  candidate_urls overpass_urls = (pre ++ url :: post)%list ->
  failures w (bounding_box sw_corner ne_corner) 0 pre = Some msgs ->
  http_get w (length pre) (bounding_box sw_corner ne_corner) url
  = JsonBody (Some pl) ->
  fetch_osm_buildings_in w sw_corner ne_corner overpass_urls output_czml
    offline_payload_path
  = outcome pl output_czml (pre ++ [url]).
Proof.
  intros Hload Hnone Hurls Hf Hurl.
  unfold fetch_osm_buildings_in, outcome. rewrite Hload, Hnone. cbv zeta.
  rewrite Hurls.
  rewrite (request_loop_answer w _ pre url post acq msgs (Some pl) Hnone
             (load_offline_inr _ _ _ Hload) Hf Hurl).
  simpl acq_payload. simpl acq_requests.
  now destruct (fetch_Some_cases pl output_czml) as [-> | [out ->]].
Qed.

Lemma X13_first_answer_wins_witness :
  fetch_osm_buildings_in example_world (0, 0)%float (1, 1)%float
    (Some ["https://a.example/api"; "https://b.example/api";
           "https://c.example/api"; "https://d.example/api"])
    false None
  = outcome (MkPayload (Some [])) false
      ["https://a.example/api"; "https://b.example/api";
       "https://c.example/api"].
Proof.
  apply (X13_first_answer_wins example_world (0, 0)%float (1, 1)%float
           (Some ["https://a.example/api"; "https://b.example/api";
                  "https://c.example/api"; "https://d.example/api"])
           false None
           {| acq_payload := None; acq_errors := []; acq_requests := [] |}
           ["https://a.example/api"; "https://b.example/api"]
           ["https://d.example/api"]
           ["https://a.example/api: timed out";
            "https://b.example/api: invalid JSON response (no JSON)"]
           "https://c.example/api" (MkPayload (Some [])));
    reflexivity.
Defined.

Lemma join_nonempty_list sep (errors : list string) :
  errors <> [] ->
  match errors with
  | [] => "Overpass API returned no payload"
  | _ :: _ => Py.join sep errors
  end = Py.join sep errors.
Proof. now destruct errors. Qed.

(** X14. When every endpoint fails, each one has been requested once, in
    the order of the list, and an [OverpassError] is raised whose text is
    the texts of the failures joined by "; ", in that order, after the text
    about a missing offline file when there was one. *)
Theorem X14_all_endpoints_fail (w : world)
    (sw_corner ne_corner : float * float)
    (overpass_urls : option (list string)) (output_czml : bool)
    (offline_payload_path : option string) (acq : acquisition)
    (msgs : list string) :
  load_offline w offline_payload_path = inr acq ->
  acq_payload acq = None ->
  failures w (bounding_box sw_corner ne_corner) 0 (candidate_urls overpass_urls)
  = Some msgs ->
  acq_requests
    (request_loop w (bounding_box sw_corner ne_corner)
       (candidate_urls overpass_urls) acq)
  = candidate_urls overpass_urls /\
  fetch_osm_buildings_in w sw_corner ne_corner overpass_urls output_czml
    offline_payload_path
  = inl (OverpassErrorWith (Py.join "; " (acq_errors acq ++ msgs))).
Proof.
  intros Hload Hnone Hf.
  pose proof (load_offline_inr _ _ _ Hload) as Hreq.
  pose proof (request_loop_failures w (bounding_box sw_corner ne_corner)
                (candidate_urls overpass_urls) [] acq msgs Hnone) as Hloop.
  rewrite Hreq, app_nil_r in Hloop. specialize (Hloop Hf). simpl in Hloop.
  split; [now rewrite Hloop |].
  unfold fetch_osm_buildings_in. rewrite Hload, Hnone. cbv zeta.
  rewrite Hloop. simpl.
  destruct (candidate_urls_cons overpass_urls) as (url & urls & Hurls).
  rewrite Hurls in Hf. simpl in Hf.
  destruct (failure url _); [|discriminate].
  destruct (failures w _ 1 urls); [|discriminate].
  injection Hf as <-. now destruct (acq_errors acq).
Qed.

Lemma X14_all_endpoints_fail_witness :
  fetch_osm_buildings_in example_world (0, 0)%float (1, 1)%float
    (Some ["https://a.example/api"; "https://b.example/api"])
    true (Some "missing.json")
  = inl (OverpassErrorWith
           "Offline payload not found: missing.json; https://a.example/api: timed out; https://b.example/api: invalid JSON response (no JSON)").
Proof.
  apply (proj2 (X14_all_endpoints_fail example_world (0, 0)%float (1, 1)%float
                  (Some ["https://a.example/api"; "https://b.example/api"])
                  true (Some "missing.json")
                  {| acq_payload := None;
                     acq_errors := ["Offline payload not found: missing.json"];
                     acq_requests := [] |}
                  ["https://a.example/api: timed out";
                   "https://b.example/api: invalid JSON response (no JSON)"]
                  eq_refl eq_refl eq_refl)).
Defined.

(** X15. A body that decodes to [None] (JSON null) ends the search like an
    answer does: the endpoints after it are not requested, and an
    [OverpassError] is raised, with the texts of the earlier failures, or
    with "Overpass API returned no payload" when there was none. *)
Theorem X15_null_body_stops_search (w : world)
    (sw_corner ne_corner : float * float)
    (overpass_urls : option (list string)) (output_czml : bool)
    (offline_payload_path : option string) (acq : acquisition)
    (pre post msgs : list string) (url : string) :
  load_offline w offline_payload_path = inr acq ->
  acq_payload acq = None ->
  candidate_urls overpass_urls = (pre ++ url :: post)%list ->
  failures w (bounding_box sw_corner ne_corner) 0 pre = Some msgs ->
  http_get w (length pre) (bounding_box sw_corner ne_corner) url
  = JsonBody None ->
  acq_requests
    (request_loop w (bounding_box sw_corner ne_corner)
       (candidate_urls overpass_urls) acq)
  = (pre ++ [url])%list /\
  fetch_osm_buildings_in w sw_corner ne_corner overpass_urls output_czml
    offline_payload_path
  = inl (OverpassErrorWith
           match (acq_errors acq ++ msgs)%list with
           | [] => "Overpass API returned no payload"
           | _ :: _ => Py.join "; " (acq_errors acq ++ msgs)
           end).
Proof.
  intros Hload Hnone Hurls Hf Hurl.
  pose proof (request_loop_answer w _ pre url post acq msgs None Hnone
                (load_offline_inr _ _ _ Hload) Hf Hurl) as Hloop.
  rewrite <- Hurls in Hloop. split; [now rewrite Hloop |].
  unfold fetch_osm_buildings_in. rewrite Hload, Hnone. cbv zeta.
  now rewrite Hloop.
Qed.

Lemma X15_null_body_stops_search_witness :
  fetch_osm_buildings_in example_world (0, 0)%float (1, 1)%float
    (Some ["https://null.example/api"; "https://c.example/api"]) false None
  = inl (OverpassErrorWith "Overpass API returned no payload").
Proof.
  apply (proj2 (X15_null_body_stops_search example_world
                  (0, 0)%float (1, 1)%float
                  (Some ["https://null.example/api"; "https://c.example/api"])
                  false None
                  {| acq_payload := None; acq_errors := []; acq_requests := [] |}
                  [] ["https://c.example/api"] [] "https://null.example/api"
                  eq_refl eq_refl eq_refl eq_refl eq_refl)).
Defined.

End Sources.
